(** * Lumen: LED effects and printer-state detection

    A shallow embedding of [lumen_lib/effects.py], [lumen_lib/state.py],
    [lumen_lib/states/bored.py] and [lumen_lib/states/sleep.py].

    Conventions of the embedding:
    - a Python [float] is a rational ([Q]); every float is one, and the
      arithmetic is the exact one (no rounding).  [math.sin] leaves the
      rationals, so [effect_pulse] computes in [R];
    - a Python [int] is a [Z];
    - a value of type [Any] (decoded JSON telemetry) is a [pyval];
    - a raised exception is the [Raise] outcome of the [res] type; code that
      can mutate an object before it raises runs in the monad [St], which
      keeps the store next to the outcome;
    - [time.time()] is an argument [now] of the operation that reads it. *)

From Stdlib Require Import ZArith QArith Qabs Qround Qreals Reals Lra Lqa Ascii.
From stdpp Require Import gmap strings list.

#[local] Set Warnings "-register-all".

(** ** The Python runtime the sources rely on *)

Module Py.

(** The exceptions of the modelled code: the subclasses of [Exception] it
    can raise, and the two classes a callable can raise that derive from
    [BaseException] only. *)
Inductive exn :=
  | TypeError | AttributeError | KeyError | IndexError
  | ValueError | ZeroDivisionError
  | KeyboardInterrupt | SystemExit.

(** [isinstance(e, Exception)] *)
Definition is_exception (e : exn) : bool :=
  match e with
  | KeyboardInterrupt | SystemExit => false
  | _ => true
  end.

Inductive res (A : Type) :=
  | Ok (a : A)
  | Raise (e : exn).
Arguments Ok {A} a.
Arguments Raise {A} e.

#[export] Instance res_ret : MRet res := @Ok.
#[export] Instance res_bind : MBind res := λ A B f m,
  match m with Ok a => f a | Raise e => Raise e end.
#[export] Instance res_fmap : FMap res := λ A B f m,
  match m with Ok a => Ok (f a) | Raise e => Raise e end.

(** Store-passing computations that may raise: the store survives a raise,
    as the fields assigned before a Python exception stay assigned. *)
Definition St (S A : Type) : Type := S → res A * S.

#[export] Instance St_ret {S} : MRet (St S) := λ A a s, (Ok a, s).
#[export] Instance St_bind {S} : MBind (St S) := λ A B f m s,
  match m s with
  | (Ok a, s') => f a s'
  | (Raise e, s') => (Raise e, s')
  end.

Definition gets {S A} (f : S → A) : St S A := λ s, (Ok (f s), s).
Definition modify {S} (f : S → S) : St S unit := λ s, (Ok tt, f s).
Definition lift {S A} (r : res A) : St S A := λ s, (r, s).

(** [try: body except Exception: pass]: an exception that is not an
    [Exception] is not caught. *)
Definition try_pass {S} (body : St S unit) : St S unit := λ s,
  match body s with
  | (Ok _, s') => (Ok tt, s')
  | (Raise e, s') => if is_exception e then (Ok tt, s') else (Raise e, s')
  end.

(** [for x in xs: body(x)] *)
Fixpoint for_each {S A} (xs : list A) (body : A → St S unit) : St S unit :=
  match xs with
  | [] => mret tt
  | x :: xs' => body x ≫= λ _, for_each xs' body
  end.

(** A decoded JSON value, the [Any] of [Dict[str, Any]]. *)
Inductive pyval :=
  | PNone
  | PBool (b : bool)
  | PNum (q : Q)
  | PStr (s : string)
  | PList (l : list pyval)
  | PDict (d : gmap string pyval).

Definition Qltb (a b : Q) : bool := negb (Qle_bool b a).

(** [bool(v)] *)
Definition truthy (v : pyval) : bool :=
  match v with
  | PNone => false
  | PBool b => b
  | PNum q => negb (Qeq_bool q 0)
  | PStr s => negb (String.eqb s "")
  | PList l => match l with [] => false | _ => true end
  | PDict d => negb (bool_decide (d = ∅))
  end.

(** [v or d] *)
Definition py_or (v d : pyval) : pyval := if truthy v then v else d.

(** [sub in s] on strings *)
Fixpoint substring_of (sub s : string) : bool :=
  String.prefix sub s ||
  match s with
  | EmptyString => false
  | String _ s' => substring_of sub s'
  end.

(** [v == k] for a string literal [k] *)
Definition eq_str (v : pyval) (k : string) : bool :=
  match v with PStr s => String.eqb s k | _ => false end.

(** [k in c] for a string literal [k] *)
Definition py_in (k : string) (c : pyval) : res bool :=
  match c with
  | PDict d => Ok (bool_decide (is_Some (d !! k)))
  | PStr s => Ok (substring_of k s)
  | PList l => Ok (existsb (λ v, eq_str v k) l)
  | _ => Raise TypeError
  end.

(** [c[k]] for a string literal [k] *)
Definition py_getitem (c : pyval) (k : string) : res pyval :=
  match c with
  | PDict d => match d !! k with Some v => Ok v | None => Raise KeyError end
  | _ => Raise TypeError
  end.

(** [c.get(k, dflt)] *)
Definition py_get (c : pyval) (k : string) (dflt : pyval) : res pyval :=
  match c with
  | PDict d => Ok (default dflt (d !! k))
  | _ => Raise AttributeError
  end.

(** [len(c)] *)
Definition py_len (c : pyval) : res nat :=
  match c with
  | PStr s => Ok (String.length s)
  | PList l => Ok (length l)
  | PDict d => Ok (size d)
  | _ => Raise TypeError
  end.

(** [c[i]] for an index [0 <= i]; the keys of a decoded JSON object are
    strings, so an integer is never one of them. *)
Definition py_index (c : pyval) (i : nat) : res pyval :=
  match c with
  | PList l => match l !! i with Some v => Ok v | None => Raise IndexError end
  | PStr s =>
      match String.get i s with
      | Some ch => Ok (PStr (String ch EmptyString))
      | None => Raise IndexError
      end
  | PDict _ => Raise KeyError
  | _ => Raise TypeError
  end.

(** The number a value stands for in arithmetic and ordering ([bool] is a
    subclass of [int]). *)
Definition as_num (v : pyval) : res Q :=
  match v with
  | PNum q => Ok q
  | PBool b => Ok (if b then 1 else 0)%Q
  | _ => Raise TypeError
  end.

(** [a > b], [a >= b], [a - b] *)
Definition py_gt (a b : pyval) : res bool :=
  x ← as_num a; y ← as_num b; Ok (Qltb y x).
Definition py_ge (a b : pyval) : res bool :=
  x ← as_num a; y ← as_num b; Ok (Qle_bool y x).
Definition py_sub (a b : pyval) : res pyval :=
  x ← as_num a; y ← as_num b; Ok (PNum (x - y)).

Definition lower_ascii (c : ascii) : ascii :=
  let n := nat_of_ascii c in
  if (65 <=? n)%nat && (n <=? 90)%nat then ascii_of_nat (n + 32) else c.

Fixpoint lower (s : string) : string :=
  match s with
  | EmptyString => EmptyString
  | String c s' => String (lower_ascii c) (lower s')
  end.

(** [v.lower()] *)
Definition py_lower (v : pyval) : res string :=
  match v with
  | PStr s => Ok (lower s)
  | _ => Raise AttributeError
  end.

(** Float arithmetic: [a / b], [a % b] (the result takes the sign of the
    divisor), [int(a)] (truncation), [min(a, b)], [max(a, b)]. *)
Definition Qmod (a b : Q) : Q := (a - inject_Z (Qfloor (a / b)) * b)%Q.

Definition py_div (a b : Q) : res Q :=
  if Qeq_bool b 0 then Raise ZeroDivisionError else Ok (a / b)%Q.
Definition py_mod (a b : Q) : res Q :=
  if Qeq_bool b 0 then Raise ZeroDivisionError else Ok (Qmod a b).
Definition py_int (a : Q) : Z := Z.quot (Qnum a) (Z.pos (Qden a)).
Definition py_min (a b : Q) : Q := if Qltb b a then b else a.
Definition py_max (a b : Q) : Q := if Qltb a b then b else a.

(** [range(n)] and the slice [l[:k]] *)
Definition py_range (n : Z) : list Z := seqZ 0 n.
Definition py_slice_to {A} (l : list A) (k : Z) : list A :=
  if (k <? 0)%Z then take (Z.to_nat (Z.of_nat (length l) + k)) l
  else take (Z.to_nat k) l.

End Py.
Import Py.

(** ** effects.py *)

Module Effects.

#[local] Open Scope Q_scope.

Definition RGB : Type := Q * Q * Q.

(** Heartbeat effect timing constants (fractions of a cycle). *)
Definition HEARTBEAT_FIRST_PULSE_DURATION : Q := 0.15.
Definition HEARTBEAT_DIP_DURATION : Q := 0.05.
Definition HEARTBEAT_SECOND_PULSE_DURATION : Q := 0.05.
Definition HEARTBEAT_FADE_DURATION : Q := 0.10.
Definition HEARTBEAT_SECOND_PULSE_INTENSITY : Q := 0.5.

Record EffectState := {
  effect : string;
  color : RGB;
  base_color : RGB;
  start_time : Q;
  last_update : Q;
  speed : Q;
  min_brightness : Q;
  max_brightness : Q;
  min_sparkle : Z;
  max_sparkle : Z;
  start_color : RGB;
  end_color : RGB;
  gradient_curve : Q;
  temp_source : string;
  direction : string;
}.

(** The dataclass defaults. *)
Definition EffectState_default : EffectState := {|
  effect := "off";
  color := (0, 0, 0);
  base_color := (0, 0, 0);
  start_time := 0;
  last_update := 0;
  speed := 1;
  min_brightness := 0.2;
  max_brightness := 1;
  min_sparkle := 1;
  max_sparkle := 6;
  start_color := (0.5, 0.5, 0.5);
  end_color := (0, 1, 0);
  gradient_curve := 1;
  temp_source := "extruder";
  direction := "standard";
|}.

Definition with_direction (d : string) (s : EffectState) : EffectState := {|
  effect := effect s;
  color := color s;
  base_color := base_color s;
  start_time := start_time s;
  last_update := last_update s;
  speed := speed s;
  min_brightness := min_brightness s;
  max_brightness := max_brightness s;
  min_sparkle := min_sparkle s;
  max_sparkle := max_sparkle s;
  start_color := start_color s;
  end_color := end_color s;
  gradient_curve := gradient_curve s;
  temp_source := temp_source s;
  direction := d;
|}.

(** *** effect_pulse *)

(** The [brightness] local of [effect_pulse]. *)
Definition pulse_brightness (state : EffectState) (now : Q) : R :=
  let elapsed := Q2R (now - start_time state) in
  let phase := ((sin (elapsed * Q2R (speed state) * 2 * PI) + 1) / 2)%R in
  (Q2R (min_brightness state)
   + phase * (Q2R (max_brightness state) - Q2R (min_brightness state)))%R.

Definition effect_pulse (state : EffectState) (now : Q) : R * R * R :=
  let brightness := pulse_brightness state now in
  let '(r, g, b) := base_color state in
  (Q2R r * brightness, Q2R g * brightness, Q2R b * brightness)%R.

(** *** effect_heartbeat *)

(** The [if]/[elif] chain of [effect_heartbeat]: the brightness at a
    [phase] of the cycle. *)
Definition heartbeat_brightness (state : EffectState) (phase : Q) : Q :=
  if Qltb phase HEARTBEAT_FIRST_PULSE_DURATION then
    let t := phase / HEARTBEAT_FIRST_PULSE_DURATION in
    min_brightness state + t * (max_brightness state - min_brightness state)
  else if Qltb phase
            (HEARTBEAT_FIRST_PULSE_DURATION + HEARTBEAT_DIP_DURATION) then
    let t := (phase - HEARTBEAT_FIRST_PULSE_DURATION) / HEARTBEAT_DIP_DURATION in
    max_brightness state
    - t * (max_brightness state - min_brightness state)
      * HEARTBEAT_SECOND_PULSE_INTENSITY
  else if Qltb phase
            (HEARTBEAT_FIRST_PULSE_DURATION + HEARTBEAT_DIP_DURATION
             + HEARTBEAT_SECOND_PULSE_DURATION) then
    let t := (phase - HEARTBEAT_FIRST_PULSE_DURATION - HEARTBEAT_DIP_DURATION)
             / HEARTBEAT_SECOND_PULSE_DURATION in
    min_brightness state + HEARTBEAT_SECOND_PULSE_INTENSITY
    + t * (max_brightness state - min_brightness state)
      * HEARTBEAT_SECOND_PULSE_INTENSITY
  else if Qltb phase
            (HEARTBEAT_FIRST_PULSE_DURATION + HEARTBEAT_DIP_DURATION
             + HEARTBEAT_SECOND_PULSE_DURATION + HEARTBEAT_FADE_DURATION) then
    let t := (phase - HEARTBEAT_FIRST_PULSE_DURATION - HEARTBEAT_DIP_DURATION
              - HEARTBEAT_SECOND_PULSE_DURATION) / HEARTBEAT_FADE_DURATION in
    max_brightness state - t * (max_brightness state - min_brightness state)
  else
    min_brightness state.

(** The [phase] local of [effect_heartbeat]. *)
Definition heartbeat_phase (state : EffectState) (now : Q) : res Q :=
  let elapsed := now - start_time state in
  cycle_time ← py_div 1 (speed state);
  m ← py_mod elapsed cycle_time;
  py_div m cycle_time.

Definition effect_heartbeat (state : EffectState) (now : Q) : res RGB :=
  phase ← heartbeat_phase state now;
  let brightness := heartbeat_brightness state phase in
  let '(r, g, b) := base_color state in
  Ok (r * brightness, g * brightness, b * brightness).

(** *** effect_disco *)

(** The module-level generator of Python's [random]: the state type [G] and
    the four operations [effect_disco] calls, with their documented
    contracts.  [rs_randint a b] is [random.randint(a, b)] on a non-empty
    range; the [ValueError] of an empty one is raised by [random_randint]
    below. *)
Class RandomSource (G : Type) := {
  rs_seed : Z → G;
  rs_randint : Z → Z → G → Z * G;
  rs_shuffle : list Z → G → list Z * G;
  rs_random : G → Q * G;
  rs_randint_range a b g :
    (a ≤ b)%Z → (a ≤ (rs_randint a b g).1 ≤ b)%Z;
  rs_shuffle_perm l g : (rs_shuffle l g).1 ≡ₚ l;
  rs_random_unit g : 0 <= (rs_random g).1 < 1;
}.

(** What [effect_disco] can reach: the [EffectState] object its first
    argument refers to, and the generator of the [random] module. *)
Record DiscoStore (G : Type) := {
  state_obj : EffectState;
  random_gen : G;
}.
Arguments state_obj {G} _.
Arguments random_gen {G} _.

Section Disco.
Context {G : Type} `{RandomSource G}.

Definition attr {A} (f : EffectState → A) : St (DiscoStore G) A :=
  gets (λ st, f (state_obj st)).

Definition with_gen (g : G) (st : DiscoStore G) : DiscoStore G :=
  {| state_obj := state_obj st; random_gen := g |}.

Definition draw {A} (f : G → A * G) : St (DiscoStore G) A := λ st,
  let '(a, g) := f (random_gen st) in (Ok a, with_gen g st).

Definition random_seed (a : Z) : St (DiscoStore G) unit :=
  modify (with_gen (rs_seed a)).
Definition random_randint (a b : Z) : St (DiscoStore G) Z :=
  if (b <? a)%Z then lift (Raise ValueError) else draw (rs_randint a b).
Definition random_shuffle (l : list Z) : St (DiscoStore G) (list Z) :=
  draw (rs_shuffle l).
Definition random_random : St (DiscoStore G) Q :=
  draw rs_random.

(** The HSV to RGB conversion of the loop body (saturation 1, value [c]). *)
Definition hue_color (hue c : Q) : RGB :=
  let h := hue * 6 in
  let x := c * (1 - Qabs (Qmod h 2 - 1)) in
  if Qltb h 1 then (c, x, 0)
  else if Qltb h 2 then (x, c, 0)
  else if Qltb h 3 then (0, c, x)
  else if Qltb h 4 then (0, x, c)
  else if Qltb h 5 then (x, 0, c)
  else (c, 0, x).

Definition effect_disco (now : Q) (led_count : Z)
  : St (DiscoStore G) (list (option RGB) * bool) :=
  last ← attr last_update;
  let time_since_update := now - last in
  sp ← attr speed;
  interval ← lift (py_div 1 sp);
  if Qltb time_since_update interval then mret ([], false)
  else
    random_seed (py_int (now * 1000000)) ≫= λ _,
    min_sp ← attr min_sparkle;
    let min_lit := Z.min min_sp led_count in
    max_sp ← attr max_sparkle;
    let max_lit := Z.min max_sp led_count in
    num_lit ← random_randint min_lit max_lit;
    all_indices ← random_shuffle (py_range led_count);
    let lit_indices : gset Z := list_to_set (py_slice_to all_indices num_lit) in
    colors ← mapM (λ i : Z,
                if bool_decide (i ∈ lit_indices) then
                  hue ← random_random;
                  c ← attr max_brightness;
                  mret (Some (hue_color hue c))
                else mret None)
              (py_range led_count);
    mret (colors, true).

End Disco.

(** *** effect_fill *)

Definition _lerp_color (color1 color2 : RGB) (t : Q) : RGB :=
  let '(r1, g1, b1) := color1 in
  let '(r2, g2, b2) := color2 in
  (r1 + (r2 - r1) * t, g1 + (g2 - g1) * t, b1 + (b2 - b1) * t).

Section Fill.
(** The builtin [pow] on floats: it rounds to a float and it can raise
    ([pow(0.0, -1.0)] is a [ZeroDivisionError]). *)
Variable pow : Q → Q → res Q.

(** The gradient colour of LED [i], computed the same way by the "fully
    lit" and the "partially lit" branch. *)
Definition gradient_color (state : EffectState) (i led_count : Z) : res RGB :=
  let gradient_t :=
    if (led_count <=? 1)%Z then 1
    else inject_Z i / inject_Z (led_count - 1) in
  curved_t ← pow gradient_t (gradient_curve state);
  Ok (_lerp_color (start_color state) (end_color state) curved_t).

(** One iteration of the loop: the element appended for LED [i]. *)
Definition fill_led (state : EffectState) (lit_count : Q) (led_count i : Z)
  : res (option RGB) :=
  let led_pos := (i + 1)%Z in
  if Qle_bool (inject_Z led_pos) lit_count then
    color ← gradient_color state i led_count;
    Ok (Some color)
  else if Qltb (inject_Z (led_pos - 1)) lit_count then
    let partial := lit_count - inject_Z (led_pos - 1) in
    base ← gradient_color state i led_count;
    let '(r, g, b) := base in
    Ok (Some (r * partial, g * partial, b * partial))
  else
    Ok None.

Definition effect_fill (state : EffectState) (fill_percent : Q) (led_count : Z)
  : res (list (option RGB)) :=
  let fill_percent := py_max 0 (py_min 1 fill_percent) in
  let lit_count := fill_percent * inject_Z led_count in
  colors ← mapM (fill_led state lit_count led_count) (py_range led_count);
  if String.eqb (direction state) "reverse" then Ok (rev colors)
  else Ok colors.

(** *** effect_thermal and effect_progress *)

Definition effect_thermal (state : EffectState)
    (current_temp target_temp temp_floor : Q) (led_count : Z)
  : res (list (option RGB)) :=
  if Qle_bool target_temp 0 then
    Ok (replicate (Z.to_nat led_count) (Some (start_color state)))
  else if Qle_bool target_temp temp_floor then
    Ok (replicate (Z.to_nat led_count) (Some (start_color state)))
  else
    let temp_range := target_temp - temp_floor in
    let temp_above_floor := current_temp - temp_floor in
    fill_percent ← py_div temp_above_floor temp_range;
    effect_fill state fill_percent led_count.

Definition effect_progress (state : EffectState) (progress : Q)
    (led_count : Z) : res (list (option RGB)) :=
  effect_fill state progress led_count.

End Fill.

End Effects.

(** ** state.py *)

Module State.

#[local] Open Scope Q_scope.

Inductive PrinterEvent :=
  | IDLE | HEATING | PRINTING | COOLDOWN | ERROR | BORED | SLEEP.

#[export] Instance PrinterEvent_eq_dec : EqDecision PrinterEvent.
Proof. solve_decision. Defined.

(** The [PrinterState] dataclass, over the type [S] of its [str] fields and
    the type [F] of its [float] fields.  The annotations are not enforced
    when [update_from_status] stores decoded telemetry, so that method
    works on [RawPrinterState]; the predicates and the detector read the
    fields at their annotated types. *)
Record PrinterStateOf (S F : Type) := {
  klipper_state : S;
  print_state : S;
  progress : F;
  filename : S;
  bed_temp : F;
  bed_target : F;
  extruder_temp : F;
  extruder_target : F;
  position_x : F;
  position_y : F;
  position_z : F;
  idle_state : S;
}.
Arguments Build_PrinterStateOf {S F}.
Arguments klipper_state {S F} _.
Arguments print_state {S F} _.
Arguments progress {S F} _.
Arguments filename {S F} _.
Arguments bed_temp {S F} _.
Arguments bed_target {S F} _.
Arguments extruder_temp {S F} _.
Arguments extruder_target {S F} _.
Arguments position_x {S F} _.
Arguments position_y {S F} _.
Arguments position_z {S F} _.
Arguments idle_state {S F} _.

Abbreviation PrinterState := (PrinterStateOf string Q).
Abbreviation RawPrinterState := (PrinterStateOf pyval pyval).

(** The dataclass defaults. *)
Definition PrinterState_default : PrinterState :=
  Build_PrinterStateOf "startup" "standby" 0 "" 0 0 0 0 0 0 0 "Ready".

(** A typed state as the runtime holds it. *)
Definition raw (s : PrinterState) : RawPrinterState :=
  Build_PrinterStateOf
    (PStr (klipper_state s)) (PStr (print_state s)) (PNum (progress s))
    (PStr (filename s)) (PNum (bed_temp s)) (PNum (bed_target s))
    (PNum (extruder_temp s)) (PNum (extruder_target s))
    (PNum (position_x s)) (PNum (position_y s)) (PNum (position_z s))
    (PStr (idle_state s)).

Section Assign.
Context {S F : Type}.
Implicit Types (s : PrinterStateOf S F).

(** [self.<field> = v] *)
Definition set_klipper_state (v : S) s :=
  let '(Build_PrinterStateOf _ a2 a3 a4 a5 a6 a7 a8 a9 a10 a11 a12) := s in
  Build_PrinterStateOf v a2 a3 a4 a5 a6 a7 a8 a9 a10 a11 a12.
Definition set_print_state (v : S) s :=
  let '(Build_PrinterStateOf a1 _ a3 a4 a5 a6 a7 a8 a9 a10 a11 a12) := s in
  Build_PrinterStateOf a1 v a3 a4 a5 a6 a7 a8 a9 a10 a11 a12.
Definition set_progress (v : F) s :=
  let '(Build_PrinterStateOf a1 a2 _ a4 a5 a6 a7 a8 a9 a10 a11 a12) := s in
  Build_PrinterStateOf a1 a2 v a4 a5 a6 a7 a8 a9 a10 a11 a12.
Definition set_filename (v : S) s :=
  let '(Build_PrinterStateOf a1 a2 a3 _ a5 a6 a7 a8 a9 a10 a11 a12) := s in
  Build_PrinterStateOf a1 a2 a3 v a5 a6 a7 a8 a9 a10 a11 a12.
Definition set_bed_temp (v : F) s :=
  let '(Build_PrinterStateOf a1 a2 a3 a4 _ a6 a7 a8 a9 a10 a11 a12) := s in
  Build_PrinterStateOf a1 a2 a3 a4 v a6 a7 a8 a9 a10 a11 a12.
Definition set_bed_target (v : F) s :=
  let '(Build_PrinterStateOf a1 a2 a3 a4 a5 _ a7 a8 a9 a10 a11 a12) := s in
  Build_PrinterStateOf a1 a2 a3 a4 a5 v a7 a8 a9 a10 a11 a12.
Definition set_extruder_temp (v : F) s :=
  let '(Build_PrinterStateOf a1 a2 a3 a4 a5 a6 _ a8 a9 a10 a11 a12) := s in
  Build_PrinterStateOf a1 a2 a3 a4 a5 a6 v a8 a9 a10 a11 a12.
Definition set_extruder_target (v : F) s :=
  let '(Build_PrinterStateOf a1 a2 a3 a4 a5 a6 a7 _ a9 a10 a11 a12) := s in
  Build_PrinterStateOf a1 a2 a3 a4 a5 a6 a7 v a9 a10 a11 a12.
Definition set_position_x (v : F) s :=
  let '(Build_PrinterStateOf a1 a2 a3 a4 a5 a6 a7 a8 _ a10 a11 a12) := s in
  Build_PrinterStateOf a1 a2 a3 a4 a5 a6 a7 a8 v a10 a11 a12.
Definition set_position_y (v : F) s :=
  let '(Build_PrinterStateOf a1 a2 a3 a4 a5 a6 a7 a8 a9 _ a11 a12) := s in
  Build_PrinterStateOf a1 a2 a3 a4 a5 a6 a7 a8 a9 v a11 a12.
Definition set_position_z (v : F) s :=
  let '(Build_PrinterStateOf a1 a2 a3 a4 a5 a6 a7 a8 a9 a10 _ a12) := s in
  Build_PrinterStateOf a1 a2 a3 a4 a5 a6 a7 a8 a9 a10 v a12.
Definition set_idle_state (v : S) s :=
  let '(Build_PrinterStateOf a1 a2 a3 a4 a5 a6 a7 a8 a9 a10 a11 _) := s in
  Build_PrinterStateOf a1 a2 a3 a4 a5 a6 a7 a8 a9 a10 a11 v.

End Assign.

(** *** PrinterState.update_from_status *)

(** [if k in c: body] *)
Definition when_in {S} (k : string) (c : pyval) (body : St S unit)
  : St S unit :=
  b ← lift (py_in k c);
  if b : bool then body else mret tt.

(** [if g in status: body(status[g])] *)
Definition when_group {S} (status : gmap string pyval) (g : string)
    (body : pyval → St S unit) : St S unit :=
  match status !! g with
  | Some v => body v
  | None => mret tt
  end.

Definition update_from_status (status : gmap string pyval)
  : St RawPrinterState unit :=
  when_group status "webhooks" (λ wh,
    when_in "state" wh (
      v ← lift (py_getitem wh "state");
      modify (set_klipper_state v)));;
  when_group status "print_stats" (λ ps,
    when_in "state" ps (
      v ← lift (py_getitem ps "state");
      modify (set_print_state v));;
    when_in "filename" ps (
      v ← lift (py_get ps "filename" (PStr ""));
      modify (set_filename v)));;
  when_group status "display_status" (λ ds,
    when_in "progress" ds (
      v ← lift (py_get ds "progress" (PNum 0));
      modify (set_progress (py_or v (PNum 0)))));;
  when_group status "heater_bed" (λ hb,
    when_in "temperature" hb (
      v ← lift (py_get hb "temperature" (PNum 0));
      modify (set_bed_temp (py_or v (PNum 0))));;
    when_in "target" hb (
      v ← lift (py_get hb "target" (PNum 0));
      modify (set_bed_target (py_or v (PNum 0)))));;
  when_group status "extruder" (λ ex,
    when_in "temperature" ex (
      v ← lift (py_get ex "temperature" (PNum 0));
      modify (set_extruder_temp (py_or v (PNum 0))));;
    when_in "target" ex (
      v ← lift (py_get ex "target" (PNum 0));
      modify (set_extruder_target (py_or v (PNum 0)))));;
  when_group status "toolhead" (λ th,
    when_in "position" th (
      pos ← lift (py_getitem th "position");
      n ← lift (py_len pos);
      if (3 <=? n)%nat then
        x ← lift (py_index pos 0);
        modify (set_position_x (py_or x (PNum 0)));;
        y ← lift (py_index pos 1);
        modify (set_position_y (py_or y (PNum 0)));;
        z ← lift (py_index pos 2);
        modify (set_position_z (py_or z (PNum 0)))
      else mret tt));;
  when_group status "idle_timeout" (λ it,
    when_in "state" it (
      v ← lift (py_getitem it "state");
      modify (set_idle_state v))).

(** *** Derived predicates of PrinterState *)

Definition is_heating (self : PrinterState) : bool :=
  Qltb 0 (bed_target self) || Qltb 0 (extruder_target self).

Definition is_hot (self : PrinterState) : bool :=
  Qltb 40 (bed_temp self) || Qltb 40 (extruder_temp self).

Definition at_temp (self : PrinterState) (tolerance : Q) : bool :=
  let bed_ok :=
    Qeq_bool (bed_target self) 0
    || Qle_bool (Qabs (bed_temp self - bed_target self)) tolerance in
  let ext_ok :=
    Qeq_bool (extruder_target self) 0
    || Qle_bool (Qabs (extruder_temp self - extruder_target self)) tolerance in
  bed_ok && ext_ok.

Definition clearly_heating (self : PrinterState) (threshold : Q) : bool :=
  if Qltb 0 (bed_target self)
     && Qltb threshold (bed_target self - bed_temp self) then true
  else if Qltb 0 (extruder_target self)
          && Qltb threshold (extruder_target self - extruder_temp self)
  then true
  else false.

(** *** StateDetector *)

Section Detector.
(** Whatever the listeners act on; a callback returns or raises. *)
Context {W : Type}.

Definition EventCallback : Type := PrinterEvent → St W unit.

Record StateDetector := {
  temp_floor : Q;
  bored_timeout : Q;
  sleep_timeout : Q;
  _current_event : PrinterEvent;
  _previous_event : PrinterEvent;
  _listeners : list EventCallback;
  _idle_start : option Q;
  _bored_start : option Q;
}.

(** [StateDetector.__init__], with the clock reading [now]. *)
Definition StateDetector_init (temp_floor bored_timeout sleep_timeout now : Q)
  : StateDetector := {|
  temp_floor := temp_floor;
  bored_timeout := bored_timeout;
  sleep_timeout := sleep_timeout;
  _current_event := IDLE;
  _previous_event := IDLE;
  _listeners := [];
  _idle_start := Some now;
  _bored_start := None;
|}.

Definition set_current_event (e : PrinterEvent) (d : StateDetector) :=
  let '(Build_StateDetector a1 a2 a3 _ a5 a6 a7 a8) := d in
  Build_StateDetector a1 a2 a3 e a5 a6 a7 a8.
Definition set_previous_event (e : PrinterEvent) (d : StateDetector) :=
  let '(Build_StateDetector a1 a2 a3 a4 _ a6 a7 a8) := d in
  Build_StateDetector a1 a2 a3 a4 e a6 a7 a8.
Definition set_listeners (l : list EventCallback) (d : StateDetector) :=
  let '(Build_StateDetector a1 a2 a3 a4 a5 _ a7 a8) := d in
  Build_StateDetector a1 a2 a3 a4 a5 l a7 a8.
Definition set_idle_start (t : option Q) (d : StateDetector) :=
  let '(Build_StateDetector a1 a2 a3 a4 a5 a6 _ a8) := d in
  Build_StateDetector a1 a2 a3 a4 a5 a6 t a8.
Definition set_bored_start (t : option Q) (d : StateDetector) :=
  let '(Build_StateDetector a1 a2 a3 a4 a5 a6 a7 _) := d in
  Build_StateDetector a1 a2 a3 a4 a5 a6 a7 t.

Definition add_listener (callback : EventCallback) : St StateDetector unit :=
  modify (λ d, set_listeners (_listeners d ++ [callback]) d).

(** Truthiness of an [Optional[float]] timer: [None] and [0.0] are falsy;
    a truthy timer gives its start time. *)
Definition running (t : option Q) : option Q :=
  match t with
  | Some v => if Qeq_bool v 0 then None else Some v
  | None => None
  end.

Definition _detect_event (state : PrinterState) (now : Q)
  : St StateDetector PrinterEvent :=
  if String.eqb (klipper_state state) "shutdown"
     || String.eqb (klipper_state state) "error" then mret ERROR
  else if String.eqb (print_state state) "printing" then
    current ← gets _current_event;
    if bool_decide (current = PRINTING) then
      if clearly_heating state 10 then mret HEATING else mret PRINTING
    else if is_heating state && negb (at_temp state 2) then mret HEATING
    else mret PRINTING
  else if is_heating state then mret HEATING
  else if is_hot state && negb (is_heating state) then mret COOLDOWN
  else
    idle_start ← gets _idle_start;
    match running idle_start with
    | Some idle_start =>
        let idle_seconds := now - idle_start in
        bored_start ← gets _bored_start;
        sleep_after ← gets sleep_timeout;
        if match running bored_start with
           | Some bored_start =>
               let bored_seconds := now - bored_start in
               Qle_bool sleep_after bored_seconds
           | None => false
           end
        then mret SLEEP
        else
          bored_after ← gets bored_timeout;
          if Qle_bool bored_after idle_seconds then
            bored_start ← gets _bored_start;
            match running bored_start with
            | Some _ => mret tt
            | None => modify (set_bored_start (Some now))
            end;;
            mret BORED
          else mret IDLE
    | None => mret IDLE
    end.

(** The detector's methods that notify run on the detector and on what the
    listeners act on. *)
Definition on_self {A} (m : St StateDetector A) : St (StateDetector * W) A :=
  λ '(d, w), let '(r, d') := m d in (r, (d', w)).
Definition call (callback : EventCallback) (e : PrinterEvent)
  : St (StateDetector * W) unit :=
  λ '(d, w), let '(r, w') := callback e w in (r, (d, w')).

Definition _transition (new_event : PrinterEvent) (now : Q)
  : St (StateDetector * W) unit :=
  on_self (
    current ← gets _current_event;
    modify (set_previous_event current);;
    modify (set_current_event new_event);;
    if bool_decide (new_event ∈ [HEATING; PRINTING; COOLDOWN; ERROR]) then
      modify (set_idle_start None);;
      modify (set_bored_start None)
    else if bool_decide (new_event = IDLE) then
      modify (set_idle_start (Some now));;
      modify (set_bored_start None)
    else if bool_decide (new_event = BORED) then
      modify (set_bored_start (Some now))
    else mret tt);;
  listeners ← on_self (gets _listeners);
  for_each listeners (λ callback, try_pass (call callback new_event)).

Definition update (state : PrinterState) (now : Q)
  : St (StateDetector * W) (option PrinterEvent) :=
  new_event ← on_self (_detect_event state now);
  current ← on_self (gets _current_event);
  if bool_decide (new_event ≠ current) then
    _transition new_event now;;
    mret (Some new_event)
  else mret None.

Definition force_event (event : PrinterEvent) (now : Q)
  : St (StateDetector * W) unit :=
  _transition event now.

Definition current_event (d : StateDetector) : PrinterEvent :=
  _current_event d.

End Detector.
Arguments StateDetector W : clear implicits.
Arguments EventCallback W : clear implicits.

End State.

(** ** states/bored.py and states/sleep.py *)

Module States.

(** [not context] for an [Optional[Dict[str, Any]]]: [None] and the empty
    dictionary are falsy. *)
Definition no_context (context : option (gmap string pyval)) : bool :=
  match context with
  | Some c => bool_decide (c = ∅)
  | None => true
  end.

Module BoredDetector.

Definition name : string := "bored".
Definition priority : Z := 80.

Definition detect (status : gmap string pyval)
    (context : option (gmap string pyval)) : res bool :=
  if no_context context then Ok false
  else
    let context := default ∅ context in
    let extruder := default (PDict ∅) (status !! "extruder") in
    let heater_bed := default (PDict ∅) (status !! "heater_bed") in
    extruder_target ← py_get extruder "target" (PNum 0);
    extruder_on ← py_gt extruder_target (PNum 0);
    heater_on ← (if extruder_on : bool then Ok true
                 else
                   bed_target ← py_get heater_bed "target" (PNum 0);
                   py_gt bed_target (PNum 0));
    if heater_on : bool then Ok false
    else
      let print_stats := default (PDict ∅) (status !! "print_stats") in
      print_state ← py_get print_stats "state" (PStr "");
      print_state ← py_lower print_state;
      if bool_decide (print_state ∈ ["printing"; "paused"]) then Ok false
      else
        let idle_timeout := default (PDict ∅) (status !! "idle_timeout") in
        idle_state ← py_get idle_timeout "state" (PStr "");
        idle_state ← py_lower idle_state;
        if String.eqb idle_state "error" then Ok false
        else
          let bored_timeout :=
            default (PNum 60) (context !! "bored_timeout") in
          let last_state := default (PStr "") (context !! "last_state") in
          let state_enter_time :=
            default (PNum 0) (context !! "state_enter_time") in
          let current_time := default (PNum 0) (context !! "current_time") in
          if eq_str last_state "bored" then Ok true
          else if eq_str last_state "idle" then
            idle_duration ← py_sub current_time state_enter_time;
            py_ge idle_duration bored_timeout
          else Ok false.

End BoredDetector.

Module SleepDetector.

Definition name : string := "sleep".
Definition priority : Z := 90.

Definition detect (status : gmap string pyval)
    (context : option (gmap string pyval)) : res bool :=
  if no_context context then Ok false
  else
    let context := default ∅ context in
    let extruder := default (PDict ∅) (status !! "extruder") in
    let heater_bed := default (PDict ∅) (status !! "heater_bed") in
    extruder_target ← py_get extruder "target" (PNum 0);
    extruder_on ← py_gt extruder_target (PNum 0);
    heater_on ← (if extruder_on : bool then Ok true
                 else
                   bed_target ← py_get heater_bed "target" (PNum 0);
                   py_gt bed_target (PNum 0));
    if heater_on : bool then Ok false
    else
      let print_stats := default (PDict ∅) (status !! "print_stats") in
      print_state ← py_get print_stats "state" (PStr "");
      print_state ← py_lower print_state;
      if bool_decide (print_state ∈ ["printing"; "paused"]) then Ok false
      else
        let idle_timeout := default (PDict ∅) (status !! "idle_timeout") in
        idle_state ← py_get idle_timeout "state" (PStr "");
        idle_state ← py_lower idle_state;
        if String.eqb idle_state "error" then Ok false
        else
          let sleep_timeout :=
            default (PNum 300) (context !! "sleep_timeout") in
          let last_state := default (PStr "") (context !! "last_state") in
          let state_enter_time :=
            default (PNum 0) (context !! "state_enter_time") in
          let current_time := default (PNum 0) (context !! "current_time") in
          if eq_str last_state "sleep" then Ok true
          else if negb (eq_str last_state "bored") then Ok false
          else
            bored_duration ← py_sub current_time state_enter_time;
            long_enough ← py_ge bored_duration sleep_timeout;
            if long_enough : bool then Ok true else Ok false.

End SleepDetector.

End States.

(** * The vocabulary of the properties *)

Module EffectsSpec.
Import Effects.
#[local] Open Scope Q_scope.

(** The brightness formula in the words of the specification. *)
Definition spec_pulse_brightness (min_b max_b speed start_time t : R) : R :=
  (min_b + ((sin (2 * PI * speed * (t - start_time)) + 1) / 2)
           * (max_b - min_b))%R.

(** The five phases in the words of the specification: rise, dip to
    [max - 50% (max - min)], second rise back to [max], fade, rest. *)
Definition spec_heartbeat_brightness (min_b max_b phase : Q) : Q :=
  if Qltb phase 0.15 then min_b + (phase / 0.15) * (max_b - min_b)
  else if Qltb phase 0.20 then
    max_b - ((phase - 0.15) / 0.05) * (0.5 * (max_b - min_b))
  else if Qltb phase 0.25 then
    (max_b - 0.5 * (max_b - min_b))
    + ((phase - 0.20) / 0.05) * (0.5 * (max_b - min_b))
  else if Qltb phase 0.35 then
    max_b - ((phase - 0.25) / 0.10) * (max_b - min_b)
  else min_b.

(** Lit and unlit entries of a buffer. *)
Definition lit_count (buffer : list (option RGB)) : nat :=
  length (filter (λ c, is_Some c) buffer).
Definition unlit_count (buffer : list (option RGB)) : nat :=
  length (filter (λ c, c = None) buffer).

(** A computation that never assigns a field of the [EffectState]. *)
Definition keeps_state (G : Type) {A} (m : St (DiscoStore G) A) : Prop :=
  ∀ st, state_obj (m st).2 = state_obj st.

(** The dataclass defaults with other sparkle bounds. *)
Definition with_sparkle (lo hi : Z) : EffectState := {|
  effect := "disco"; color := (0, 0, 0); base_color := (0, 0, 0);
  start_time := 0; last_update := 0; speed := 1;
  min_brightness := 0.2; max_brightness := 1;
  min_sparkle := lo; max_sparkle := hi;
  start_color := (0.5, 0.5, 0.5); end_color := (0, 1, 0);
  gradient_curve := 1; temp_source := "extruder"; direction := "standard"
|}.

End EffectsSpec.

(** A sample generator

    A linear congruential generator behind the [RandomSource] interface,
    used to run [effect_disco] on concrete inputs. *)

Module Lcg.

Definition next (g : Z) : Z := ((g * 1103515245 + 12345) mod 2147483648)%Z.

Definition randint (a b g : Z) : Z * Z :=
  ((a + g mod (b - a + 1))%Z, next g).

Definition shuffle (l : list Z) (g : Z) : list Z * Z :=
  (rotate (Z.to_nat (g mod 7)) l, next g).

Definition random (g : Z) : Q * Z := (Qmake (g mod 1000) 1000, next g).

End Lcg.

Module StatusSpec.
Import State.

(** The recognised top-level groups. *)
Definition known_groups : list string :=
  ["webhooks"; "print_stats"; "display_status"; "heater_bed"; "extruder";
   "toolhead"; "idle_timeout"].

(** The fields of the state, in the order [update_from_status] treats
    them, with the group and the sub-key each one is read from. *)
Inductive field :=
  | Klipper_state | Print_state | Filename | Progress
  | Bed_temp | Bed_target | Extruder_temp | Extruder_target
  | Position_x | Position_y | Position_z | Idle_state.

#[export] Instance field_eq_dec : EqDecision field.
Proof. solve_decision. Defined.

Definition all_fields : list field :=
  [Klipper_state; Print_state; Filename; Progress; Bed_temp; Bed_target;
   Extruder_temp; Extruder_target; Position_x; Position_y; Position_z;
   Idle_state].

Definition field_value (f : field) (st : RawPrinterState) : pyval :=
  match f with
  | Klipper_state => klipper_state st
  | Print_state => print_state st
  | Filename => filename st
  | Progress => progress st
  | Bed_temp => bed_temp st
  | Bed_target => bed_target st
  | Extruder_temp => extruder_temp st
  | Extruder_target => extruder_target st
  | Position_x => position_x st
  | Position_y => position_y st
  | Position_z => position_z st
  | Idle_state => idle_state st
  end.

Definition assign (f : field) (v : pyval) (st : RawPrinterState)
  : RawPrinterState :=
  match f with
  | Klipper_state => set_klipper_state v st
  | Print_state => set_print_state v st
  | Filename => set_filename v st
  | Progress => set_progress v st
  | Bed_temp => set_bed_temp v st
  | Bed_target => set_bed_target v st
  | Extruder_temp => set_extruder_temp v st
  | Extruder_target => set_extruder_target v st
  | Position_x => set_position_x v st
  | Position_y => set_position_y v st
  | Position_z => set_position_z v st
  | Idle_state => set_idle_state v st
  end.

Definition group_of (f : field) : string :=
  match f with
  | Klipper_state => "webhooks"
  | Print_state | Filename => "print_stats"
  | Progress => "display_status"
  | Bed_temp | Bed_target => "heater_bed"
  | Extruder_temp | Extruder_target => "extruder"
  | Position_x | Position_y | Position_z => "toolhead"
  | Idle_state => "idle_timeout"
  end.

Definition key_of (f : field) : string :=
  match f with
  | Klipper_state | Print_state | Idle_state => "state"
  | Filename => "filename"
  | Progress => "progress"
  | Bed_temp | Extruder_temp => "temperature"
  | Bed_target | Extruder_target => "target"
  | Position_x | Position_y | Position_z => "position"
  end.

(** The fields annotated [float]. *)
Definition numeric (f : field) : bool :=
  match f with
  | Klipper_state | Print_state | Filename | Idle_state => false
  | _ => true
  end.

Definition position_index (f : field) : option nat :=
  match f with
  | Position_x => Some 0%nat
  | Position_y => Some 1%nat
  | Position_z => Some 2%nat
  | _ => None
  end.

(** The sub-field a status carries for [f]: the value under the field's
    key in the field's group, and for a coordinate the element of a
    [position] list of at least three. *)
Definition sub_field (status : gmap string pyval) (f : field)
  : option pyval :=
  match status !! group_of f with
  | Some (PDict d) =>
      match position_index f with
      | None => d !! key_of f
      | Some i =>
          match d !! "position" with
          | Some (PList l) => if (3 <=? length l)%nat then l !! i else None
          | _ => None
          end
      end
  | _ => None
  end.

(** What is stored for a carried sub-field: [v or 0.0] in a numeric field,
    [v] itself otherwise. *)
Definition stored (f : field) (v : pyval) : pyval :=
  if numeric f then py_or v (PNum 0) else v.

Definition put (f : field) (o : option pyval) (st : RawPrinterState)
  : RawPrinterState :=
  match o with
  | Some v => assign f (stored f v) st
  | None => st
  end.

Definition merged (status : gmap string pyval) (st : RawPrinterState)
  : RawPrinterState :=
  foldl (λ st f, put f (sub_field status f) st) st all_fields.

(** Well-formed groups: a recognised group that is present is a mapping,
    and a [position] that is present is a list. *)
Definition mapping_or_absent (o : option pyval) : bool :=
  match o with
  | None | Some (PDict _) => true
  | Some _ => false
  end.

Definition position_is_list (status : gmap string pyval) : bool :=
  match status !! "toolhead" with
  | Some (PDict th) =>
      match th !! "position" with
      | None | Some (PList _) => true
      | Some _ => false
      end
  | _ => true
  end.

Definition groups_well_formed (status : gmap string pyval) : bool :=
  forallb (λ g, mapping_or_absent (status !! g)) known_groups
  && position_is_list status.

End StatusSpec.

Module DetectorSpec.
Import State.

(** A listener that records the event it is given, one that raises an
    [Exception], and one that raises outside [Exception]. *)
Definition record_event : EventCallback (list PrinterEvent) :=
  λ e log, (Ok tt, log ++ [e]).
Definition failing : EventCallback (list PrinterEvent) :=
  λ e log, (Raise ValueError, log).
Definition interrupting : EventCallback (list PrinterEvent) :=
  λ e log, (Raise KeyboardInterrupt, log).

(** A listener all of whose failures derive from [Exception]. *)
Definition raises_only_exceptions {W} (callback : EventCallback W) : Prop :=
  ∀ e w b, (callback e w).1 = Raise b → is_exception b = true.

(** The outcome of calling the listeners in turn with [e], each inside
    [try ... except Exception: pass]: the first exception that is not an
    [Exception] ends the round. *)
Fixpoint notify {W} (e : PrinterEvent) (listeners : list (EventCallback W))
    (w : W) : res unit * W :=
  match listeners with
  | [] => (Ok tt, w)
  | callback :: rest =>
      match callback e w with
      | (Ok _, w') => notify e rest w'
      | (Raise b, w') =>
          if is_exception b then notify e rest w' else (Raise b, w')
      end
  end.

End DetectorSpec.

Module TelemetrySpec.
#[local] Open Scope Q_scope.

(** Typed telemetry: a group that is present is a mapping, a heater
    [target] that is present is a number, a [state] that is present is a
    string. *)
Definition is_number (v : pyval) : bool :=
  match v with PNum _ => true | _ => false end.
Definition is_string (v : pyval) : bool :=
  match v with PStr _ => true | _ => false end.

Definition leaf_typed (status : gmap string pyval) (g k : string)
    (ok : pyval → bool) : bool :=
  match status !! g with
  | None => true
  | Some (PDict d) => match d !! k with None => true | Some v => ok v end
  | Some _ => false
  end.

Definition typed_telemetry (status : gmap string pyval) : bool :=
  leaf_typed status "extruder" "target" is_number
  && leaf_typed status "heater_bed" "target" is_number
  && leaf_typed status "print_stats" "state" is_string
  && leaf_typed status "idle_timeout" "state" is_string.

(** The heater target and the sub-state a status reports, with the
    defaults of an absent group or key ([0] and [""]). *)
Definition heater_target (status : gmap string pyval) (g : string) : Q :=
  match status !! g with
  | Some (PDict d) =>
      match d !! "target" with Some (PNum q) => q | _ => 0 end
  | _ => 0
  end.

Definition sub_state (status : gmap string pyval) (g : string) : string :=
  match status !! g with
  | Some (PDict d) =>
      match d !! "state" with Some (PStr s) => s | _ => "" end
  | _ => ""
  end.

(** The condition under which neither unit may fire. *)
Definition guard_trips (status : gmap string pyval) : Prop :=
  0 < heater_target status "extruder"
  ∨ 0 < heater_target status "heater_bed"
  ∨ sub_state status "print_stats" ∈ ["printing"; "paused"]
  ∨ sub_state status "idle_timeout" = "error".

End TelemetrySpec.

(** Vocabulary of the further properties. *)

Module MoreSpec.
Import Effects.
#[local] Open Scope Q_scope.

(** A channel value lying between two others, in either order. *)
Definition between (x a b : Q) : Prop :=
  (a <= x ∧ x <= b) ∨ (b <= x ∧ x <= a).

(** Two colours with equal channels (as numbers). *)
Definition same_color (c c' : RGB) : Prop :=
  c.1.1 == c'.1.1 ∧ c.1.2 == c'.1.2 ∧ c.2 == c'.2.

(** Every channel of a colour within [[0, c]]. *)
Definition channels_within (c : Q) (rgb : RGB) : Prop :=
  (0 <= rgb.1.1 ∧ rgb.1.1 <= c)
  ∧ (0 <= rgb.1.2 ∧ rgb.1.2 <= c)
  ∧ (0 <= rgb.2 ∧ rgb.2 <= c).

(** Every channel of [c] between the channels of [a] and [b]. *)
Definition on_segment (c a b : RGB) : Prop :=
  between c.1.1 a.1.1 b.1.1
  ∧ between c.1.2 a.1.2 b.1.2
  ∧ between c.2 a.2 b.2.

(** [pow] returns for bases in [[0, 1]] at exponent [c]. *)
Definition returns_on_unit (pow : Q → Q → res Q) (c : Q) : Prop :=
  ∀ t, 0 <= t → t <= 1 → ∃ r, pow t c = Ok r.

(** [pow] at exponent [c] maps [[0, 1]] into itself and fixes both ends, as
    the builtin does for a positive exponent. *)
Definition curve_on_unit (pow : Q → Q → res Q) (c : Q) : Prop :=
  ∀ t, 0 <= t → t <= 1 →
    ∃ r, pow t c = Ok r ∧ 0 <= r ∧ r <= 1
         ∧ (t == 0 → r == 0) ∧ (t == 1 → r == 1).

(** What a firing call computes, from the seed on. *)
Definition fired {G : Type} `{RandomSource G} (s : EffectState) (now : Q) (led_count : Z)
  : res (list (option RGB) * bool) * DiscoStore G :=
  (random_seed (py_int (now * 1000000)) ≫= λ _,
   min_sp ← attr min_sparkle;
   let min_lit := Z.min min_sp led_count in
   max_sp ← attr max_sparkle;
   let max_lit := Z.min max_sp led_count in
   num_lit ← random_randint min_lit max_lit;
   all_indices ← random_shuffle (py_range led_count);
   let lit_indices : gset Z :=
     list_to_set (py_slice_to all_indices num_lit) in
   colors ← mapM (λ i : Z,
               if bool_decide (i ∈ lit_indices) then
                 hue ← random_random;
                 c ← attr max_brightness;
                 mret (Some (hue_color hue c))
               else mret None)
             (py_range led_count);
   mret (colors, true))
    {| state_obj := s; random_gen := rs_seed (py_int (now * 1000000)) |}.

(** LED [i] of a buffer carries a colour. *)
Definition lit_at (buffer : list (option RGB)) (i : nat) : Prop :=
  ∃ c, buffer !! i = Some (Some c).

(** The gradient position of LED [i] on a strip of [led_count]. *)
Definition gradient_t (led_count i : Z) : Q :=
  if (led_count <=? 1)%Z then 1 else inject_Z i / inject_Z (led_count - 1).

(** [pow] at exponent one, where it is the identity; it instantiates the
    properties at the default [gradient_curve = 1]. *)
Definition linear_pow (t c : Q) : res Q := Ok t.

End MoreSpec.


Module DetectorMoreSpec.
Import State.
#[local] Open Scope Q_scope.

(** A printer that is doing nothing: no fault, no print, no heater target,
    nothing above 40 degrees.  The decision tree then answers from the idle
    timers. *)
Definition quiet (state : PrinterState) : Prop :=
  klipper_state state ≠ "shutdown" ∧ klipper_state state ≠ "error"
  ∧ print_state state ≠ "printing"
  ∧ is_heating state = false ∧ is_hot state = false.

(** The answer of the decision tree where the printer's state settles it:
    fault, print (with the hysteresis on the current event), heating,
    cooldown.  [None] for a quiet printer. *)
Definition busy_event (state : PrinterState) (current : PrinterEvent)
  : option PrinterEvent :=
  if String.eqb (klipper_state state) "shutdown"
     || String.eqb (klipper_state state) "error" then Some ERROR
  else if String.eqb (print_state state) "printing" then
    if bool_decide (current = PRINTING) then
      Some (if clearly_heating state 10 then HEATING else PRINTING)
    else Some (if is_heating state && negb (at_temp state 2) then HEATING
               else PRINTING)
  else if is_heating state then Some HEATING
  else if is_hot state && negb (is_heating state) then Some COOLDOWN
  else None.

Section Detector.
Context {W : Type}.

(** The answer of the decision tree for a quiet printer, from the timers,
    with the detector it leaves. *)
Definition idle_event (now : Q) (d : StateDetector W)
  : PrinterEvent * StateDetector W :=
  match running (_idle_start d) with
  | Some t0 =>
      if match running (_bored_start d) with
         | Some b => Qle_bool (sleep_timeout d) (now - b)
         | None => false
         end
      then (SLEEP, d)
      else if Qle_bool (bored_timeout d) (now - t0) then
        (BORED,
         match running (_bored_start d) with
         | Some _ => d
         | None => set_bored_start (Some now) d
         end)
      else (IDLE, d)
  | None => (IDLE, d)
  end.

Definition decision (state : PrinterState) (now : Q) (d : StateDetector W)
  : PrinterEvent * StateDetector W :=
  match busy_event state (_current_event d) with
  | Some e => (e, d)
  | None => idle_event now d
  end.

(** The world after every listener was called with [e], failures
    ignored. *)
Definition notified (e : PrinterEvent) (listeners : list (EventCallback W))
    (w : W) : W :=
  foldl (λ w callback, (callback e w).2) w listeners.

(** The detector after the assignments of a transition to [e]. *)
Definition moved (e : PrinterEvent) (now : Q) (d : StateDetector W)
  : StateDetector W := {|
  temp_floor := temp_floor d;
  bored_timeout := bored_timeout d;
  sleep_timeout := sleep_timeout d;
  _current_event := e;
  _previous_event := _current_event d;
  _listeners := _listeners d;
  _idle_start :=
    match e with
    | HEATING | PRINTING | COOLDOWN | ERROR => None
    | IDLE => Some now
    | BORED | SLEEP => _idle_start d
    end;
  _bored_start :=
    match e with
    | HEATING | PRINTING | COOLDOWN | ERROR | IDLE => None
    | BORED => Some now
    | SLEEP => _bored_start d
    end;
|}.

(** The timers agree with the current event: both are off while the
    printer is active, the idle timer alone is set while idle, and both are
    set while bored or asleep. *)
Definition timers_consistent (d : StateDetector W) : Prop :=
  match _current_event d with
  | HEATING | PRINTING | COOLDOWN | ERROR =>
      _idle_start d = None ∧ _bored_start d = None
  | IDLE => is_Some (_idle_start d) ∧ _bored_start d = None
  | BORED | SLEEP => is_Some (_idle_start d) ∧ is_Some (_bored_start d)
  end.

End Detector.

End DetectorMoreSpec.

Module ContextSpec.

(** The state the tracking context says the printer was last in, with the
    default of an absent key. *)
Definition last_state (context : option (gmap string pyval)) : pyval :=
  default (PStr "") (default ∅ context !! "last_state").

(** The context at a later reading of the clock. *)
Definition at_time (t : Q) (context : gmap string pyval)
  : option (gmap string pyval) :=
  Some (<["current_time" := PNum t]> context).

End ContextSpec.

Module StatusMoreSpec.
Import State StatusSpec TelemetrySpec.

(** A value of the annotated type of the field: a number for the fields
    annotated [float], a string for those annotated [str]. *)
Definition annotated (f : field) (v : pyval) : bool :=
  if numeric f then is_number v else is_string v.

(** A status that carries, for every field, a value of the field's type;
    a numeric field may also carry a falsy value, which is stored as
    [0.0]. *)
Definition well_typed (status : gmap string pyval) : Prop :=
  ∀ f v, sub_field status f = Some v →
    if numeric f then is_number v = true ∨ truthy v = false
    else is_string v = true.

(** [null], a boolean or a number, on which [in] raises. *)
Definition scalar (v : pyval) : bool :=
  match v with
  | PNone | PBool _ | PNum _ => true
  | _ => false
  end.

End StatusMoreSpec.

(** * Properties *)

(** ** Comparisons on [Q] *)

Lemma Qltb_lt (a b : Q) : Qltb a b = true ↔ (a < b)%Q.
Proof.
  unfold Qltb. rewrite negb_true_iff, <- not_true_iff_false, Qle_bool_iff.
  split; [apply Qnot_le_lt | apply Qlt_not_le].
Qed.

Lemma Qltb_ge (a b : Q) : Qltb a b = false ↔ (b <= a)%Q.
Proof. unfold Qltb. by rewrite negb_false_iff, Qle_bool_iff. Qed.

(** ** effect_pulse *)

Module PulseFacts.
Import Effects EffectsSpec.

Lemma pulse_brightness_spec (s : EffectState) (now : Q) :
  pulse_brightness s now
  = spec_pulse_brightness (Q2R (min_brightness s)) (Q2R (max_brightness s))
      (Q2R (speed s)) (Q2R (start_time s)) (Q2R now).
Proof.
  unfold pulse_brightness, spec_pulse_brightness.
  rewrite Q2R_minus.
  by replace ((Q2R now - Q2R (start_time s)) * Q2R (speed s) * 2 * PI)%R
    with (2 * PI * Q2R (speed s) * (Q2R now - Q2R (start_time s)))%R
    by ring.
Qed.

Lemma spec_pulse_brightness_start (min_b max_b speed t0 : R) :
  spec_pulse_brightness min_b max_b speed t0 t0 = ((min_b + max_b) / 2)%R.
Proof.
  unfold spec_pulse_brightness.
  replace (2 * PI * speed * (t0 - t0))%R with 0%R by ring.
  rewrite sin_0. field.
Qed.

(** C3: [effect_pulse] returns [base_color] scaled per channel by
    [min_b + ((sin(2*pi*speed*(now - start_time)) + 1)/2) * (max_b - min_b)];
    at [now = start_time] that brightness is the midpoint
    [(min_b + max_b)/2], which is [min_b] only when the two bounds agree. *)
Theorem effect_pulse_scales_by_sine_brightness (s : EffectState) (now : Q) :
  let brightness t :=
    spec_pulse_brightness (Q2R (min_brightness s)) (Q2R (max_brightness s))
      (Q2R (speed s)) (Q2R (start_time s)) (Q2R t) in
  effect_pulse s now
  = (Q2R (base_color s).1.1 * brightness now,
     Q2R (base_color s).1.2 * brightness now,
     Q2R (base_color s).2 * brightness now)%R
  ∧ brightness (start_time s)
    = ((Q2R (min_brightness s) + Q2R (max_brightness s)) / 2)%R
  ∧ (brightness (start_time s) = Q2R (min_brightness s)
     ↔ Q2R (min_brightness s) = Q2R (max_brightness s)).
Proof.
  cbv zeta. split; [|split].
  - unfold effect_pulse. rewrite pulse_brightness_spec.
    by destruct (base_color s) as [[r g] b].
  - apply spec_pulse_brightness_start.
  - rewrite spec_pulse_brightness_start. split; intros; Lra.lra.
Qed.

End PulseFacts.

(** ** effect_heartbeat *)

Module HeartbeatFacts.
Import Effects EffectsSpec.
#[local] Open Scope Q_scope.

Ltac heartbeat_branch :=
  repeat match goal with
  | |- context [Qltb ?a ?b] =>
      let E := fresh "E" in
      destruct (Qltb a b) eqn:E;
      [apply Qltb_lt in E | apply Qltb_ge in E];
      try (exfalso; unfold Qdiv in *; simpl in *; lra)
  end.

(** Outside the second rise the code follows the five-phase description. *)
Lemma heartbeat_brightness_outside_second_rise (s : EffectState) (phase : Q) :
  phase < 0.20 ∨ 0.25 <= phase →
  heartbeat_brightness s phase
  == spec_heartbeat_brightness (min_brightness s) (max_brightness s) phase.
Proof.
  intros Hph. unfold heartbeat_brightness, spec_heartbeat_brightness.
  unfold HEARTBEAT_FIRST_PULSE_DURATION, HEARTBEAT_DIP_DURATION,
    HEARTBEAT_SECOND_PULSE_DURATION, HEARTBEAT_FADE_DURATION,
    HEARTBEAT_SECOND_PULSE_INTENSITY.
  destruct Hph; heartbeat_branch; cbv zeta; field.
Qed.

(** On the second rise the code starts from [min + 0.5], not from
    [min + 0.5 (max - min)]: it is off by [(1 - (max - min)) / 2]. *)
Lemma heartbeat_brightness_second_rise (s : EffectState) (phase : Q) :
  0.20 <= phase → phase < 0.25 →
  heartbeat_brightness s phase
  == spec_heartbeat_brightness (min_brightness s) (max_brightness s) phase
     + (1 - (max_brightness s - min_brightness s)) / 2.
Proof.
  intros Hlo Hhi. unfold heartbeat_brightness, spec_heartbeat_brightness.
  unfold HEARTBEAT_FIRST_PULSE_DURATION, HEARTBEAT_DIP_DURATION,
    HEARTBEAT_SECOND_PULSE_DURATION, HEARTBEAT_FADE_DURATION,
    HEARTBEAT_SECOND_PULSE_INTENSITY.
  heartbeat_branch; cbv zeta; field.
Qed.

(** C2, at the dataclass defaults ([min_brightness = 0.2],
    [max_brightness = 1.0], [speed = 1.0], [start_time = 0.0]) with a white
    [base_color] and [now = 0.225], the middle of the second rise: the
    five-phase description gives brightness [0.8]; [effect_heartbeat] returns
    [0.9] per channel.  *)
Theorem effect_heartbeat_second_rise_default :
  let s := {|
    effect := "heartbeat"; color := (0, 0, 0); base_color := (1, 1, 1);
    start_time := 0; last_update := 0; speed := 1;
    min_brightness := 0.2; max_brightness := 1;
    min_sparkle := 1; max_sparkle := 6;
    start_color := (0.5, 0.5, 0.5); end_color := (0, 1, 0);
    gradient_curve := 1; temp_source := "extruder"; direction := "standard"
  |} in
  ∃ phase r g b,
    heartbeat_phase s 0.225 = Ok phase ∧ phase == 0.225
    ∧ effect_heartbeat s 0.225 = Ok (r, g, b)
    ∧ r == 0.9 ∧ g == 0.9 ∧ b == 0.9
    ∧ spec_heartbeat_brightness (min_brightness s) (max_brightness s) phase
      == 0.8.
Proof.
  cbv zeta. eexists _, _, _, _. split; [vm_compute; reflexivity|].
  split; [reflexivity|].
  split; [vm_compute; reflexivity|].
  repeat split; reflexivity.
Qed.

End HeartbeatFacts.

(** ** effect_fill *)

Module FillFacts.
Import Effects.

(** The loop of [effect_fill] does not read [direction]. *)
Lemma fill_led_with_direction pow d s lit_count led_count i :
  fill_led pow (with_direction d s) lit_count led_count i
  = fill_led pow s lit_count led_count i.
Proof. reflexivity. Qed.

(** C8: the buffer [effect_fill] returns for [direction = 'reverse'] is the
    reversal of the one it returns for [direction = 'standard'], all other
    inputs being the same (and it raises exactly when that one does). *)
Theorem effect_fill_reverse_is_reversed_standard
    (pow : Q → Q → res Q) (s : EffectState) (fill_percent : Q)
    (led_count : Z) :
  effect_fill pow (with_direction "reverse" s) fill_percent led_count
  = @rev _ <$> effect_fill pow (with_direction "standard" s) fill_percent
              led_count.
Proof.
  unfold effect_fill. cbn [direction with_direction].
  change (String.eqb "reverse" "reverse") with true.
  change (String.eqb "standard" "reverse") with false.
  cbv zeta.
  change (fill_led pow (with_direction "reverse" s))
    with (fill_led pow (with_direction "standard" s)).
  by destruct (mapM _ _).
Qed.

End FillFacts.

(** ** The store-passing monad *)

Lemma St_bind_eq {S A B} (m : St S A) (f : A → St S B) (s : S) :
  (m ≫= f) s
  = match m s with
    | (Ok a, s') => f a s'
    | (Raise e, s') => (Raise e, s')
    end.
Proof. reflexivity. Qed.

Lemma St_bind_ok {S A B} (m : St S A) (f : A → St S B) (s s' : S) (a : A) :
  m s = (Ok a, s') → (m ≫= f) s = f a s'.
Proof. intros E. by rewrite St_bind_eq, E. Qed.

Lemma mapM_cons_eq {S A B} (f : A → St S B) (x : A) (l : list A) :
  mapM f (x :: l) = (y ← f x; k ← mapM f l; mret (y :: k)).
Proof. reflexivity. Qed.

(** ** effect_disco *)

Module DiscoFacts.
Import Effects EffectsSpec.

Section Frame.
Context {G : Type} `{RandomSource G}.

Lemma keeps_ret {A} (a : A) : keeps_state G (mret a).
Proof. by intros st. Qed.

Lemma keeps_bind {A B} (m : St (DiscoStore G) A) (f : A → St (DiscoStore G) B) :
  keeps_state G m → (∀ a, keeps_state G (f a)) → keeps_state G (m ≫= f).
Proof.
  intros Hm Hf st. rewrite St_bind_eq. specialize (Hm st).
  destruct (m st) as [[a|e] st']; simpl in *; [|done].
  by rewrite Hf.
Qed.

Lemma keeps_attr {A} (f : EffectState → A) : keeps_state G (attr f).
Proof. by intros st. Qed.

Lemma keeps_lift {A} (r : res A) : keeps_state G (lift r).
Proof. by intros st. Qed.

Lemma keeps_draw {A} (f : G → A * G) : keeps_state G (draw f).
Proof. intros st. unfold draw. by destruct (f _). Qed.

Lemma keeps_random_seed a : keeps_state G (random_seed a).
Proof. by intros st. Qed.

Lemma keeps_random_randint a b : keeps_state G (random_randint a b).
Proof.
  unfold random_randint. destruct (_ <? _)%Z;
    [apply keeps_lift | apply keeps_draw].
Qed.

Lemma keeps_mapM {A B} (f : A → St (DiscoStore G) B) (l : list A) :
  (∀ x, keeps_state G (f x)) → keeps_state G (mapM f l).
Proof.
  intros Hf. induction l as [|x l IH]; [apply keeps_ret|].
  rewrite mapM_cons_eq. apply keeps_bind; [done|]. intros y.
  apply keeps_bind; [done|]. intros k. apply keeps_ret.
Qed.

End Frame.

(** C1 (as amended): [effect_disco] assigns no field of its [EffectState]
    argument, [last_update] included, whether the gate fires or not and
    whatever the outcome; the gate only reads [last_update] and reports
    through the returned flag. *)
Theorem effect_disco_does_not_mutate_state
    {G : Type} `{RandomSource G} (now : Q) (led_count : Z)
    (st : DiscoStore G) :
  state_obj (effect_disco now led_count st).2 = state_obj st.
Proof.
  revert st. change (keeps_state G (effect_disco now led_count)).
  unfold effect_disco.
  apply keeps_bind; [apply keeps_attr|]; intros last.
  apply keeps_bind; [apply keeps_attr|]; intros sp.
  apply keeps_bind; [apply keeps_lift|]; intros interval.
  destruct (Qltb _ _); [apply keeps_ret|].
  apply keeps_bind; [apply keeps_random_seed|]; intros _.
  apply keeps_bind; [apply keeps_attr|]; intros min_sp.
  apply keeps_bind; [apply keeps_attr|]; intros max_sp.
  apply keeps_bind; [apply keeps_random_randint|]; intros num_lit.
  apply keeps_bind; [apply keeps_draw|]; intros all_indices.
  apply keeps_bind; [|intros; apply keeps_ret].
  apply keeps_mapM. intros i. destruct (bool_decide _); [|apply keeps_ret].
  apply keeps_bind; [apply keeps_draw|]; intros hue.
  apply keeps_bind; [apply keeps_attr|]; intros c. apply keeps_ret.
Qed.

End DiscoFacts.

(** ** The sample generator is a [RandomSource] *)

Module LcgSource.
Import Effects.

Lemma randint_range a b g : (a ≤ b)%Z → (a ≤ (Lcg.randint a b g).1 ≤ b)%Z.
Proof.
  intros Hab. simpl.
  pose proof (Z.mod_pos_bound g (b - a + 1)) as Hm. lia.
Qed.

Lemma shuffle_perm l g : (Lcg.shuffle l g).1 ≡ₚ l.
Proof.
  simpl. unfold rotate.
  rewrite Permutation_app_comm. by rewrite take_drop.
Qed.

Lemma random_unit g : (0 <= (Lcg.random g).1 < 1)%Q.
Proof.
  simpl. pose proof (Z.mod_pos_bound g 1000) as Hm.
  unfold Qle, Qlt. simpl. lia.
Qed.

#[export] Instance source : RandomSource Z := {|
  rs_seed := λ a, a;
  rs_randint := Lcg.randint;
  rs_shuffle := Lcg.shuffle;
  rs_random := Lcg.random;
  rs_randint_range := randint_range;
  rs_shuffle_perm := shuffle_perm;
  rs_random_unit := random_unit;
|}.

End LcgSource.

Module DiscoRuns.
Import Effects EffectsSpec.
#[local] Open Scope Q_scope.

Lemma lit_unlit_length (buffer : list (option RGB)) :
  (lit_count buffer + unlit_count buffer = length buffer)%nat.
Proof.
  unfold lit_count, unlit_count.
  induction buffer as [|[c|] buffer IH]; [done| |].
  - rewrite filter_cons_True by done.
    rewrite (filter_cons_False (λ c, c = None)) by done. simpl. lia.
  - rewrite filter_cons_False by (by intros [? ?]).
    rewrite (filter_cons_True (λ c, c = None)) by done. simpl. lia.
Qed.

Section Loop.
Context {G : Type} `{RandomSource G}.

(** The loop of [effect_disco] returns, and lights exactly the positions in
    [lit_indices]. *)
Lemma disco_loop (lit_indices : gset Z) (l : list Z) (st : DiscoStore G) :
  ∃ colors st',
    mapM (λ i : Z,
        if bool_decide (i ∈ lit_indices) then
          hue ← random_random;
          c ← attr max_brightness;
          mret (Some (hue_color hue c))
        else mret None) l st
    = (Ok colors, st')
    ∧ length colors = length l
    ∧ lit_count colors = length (filter (λ i, i ∈ lit_indices) l).
Proof.
  revert st. induction l as [|i l IH]; intros st.
  { by exists [], st. }
  rewrite mapM_cons_eq.
  set (body := λ i : Z, if bool_decide (i ∈ lit_indices) then _ else _).
  assert (∃ c st1, body i st = (Ok c, st1) ∧ (is_Some c ↔ i ∈ lit_indices))
    as (c & st1 & Hbody & Hc).
  { unfold body. case_bool_decide as Hi.
    - unfold random_random, draw. rewrite St_bind_eq.
      destruct (rs_random _) as [hue g']. eexists _, _. split; [done|].
      split; [done | by eexists]. 
    - eexists None, st. split; [done|]. split; [by intros [? ?] | done]. }
  rewrite (St_bind_ok _ _ _ _ _ Hbody).
  destruct (IH st1) as (colors & st' & Hloop & Hlen & Hlit).
  rewrite (St_bind_ok _ _ _ _ _ Hloop).
  exists (c :: colors), st'. split; [done|]. split; [simpl; lia|].
  unfold lit_count in *.
  destruct (decide (i ∈ lit_indices)) as [Hi|Hi].
  - rewrite !filter_cons_True by tauto. simpl. lia.
  - rewrite !filter_cons_False by tauto. done.
Qed.

(** A prefix of a shuffled [range(n)] selects as many positions as it is
    long. *)
Lemma lit_positions (n : Z) (k : nat) (all_indices : list Z) :
  all_indices ≡ₚ py_range n →
  length (filter (λ i, i ∈ (list_to_set (take k all_indices) : gset Z))
            (py_range n))
  = length (take k all_indices).
Proof.
  intros Hperm. apply Permutation_length, NoDup_Permutation.
  - apply NoDup_filter, NoDup_seqZ.
  - apply (sublist_NoDup _ all_indices); [|apply sublist_take].
    rewrite Hperm. apply NoDup_seqZ.
  - intros x. rewrite list_elem_of_filter, elem_of_list_to_set.
    split; [tauto|]. intros Hx. split; [done|].
    rewrite <- Hperm. by apply (subseteq_take k).
Qed.

End Loop.

End DiscoRuns.

Module DiscoGate.
Import Effects EffectsSpec DiscoRuns.
#[local] Open Scope Q_scope.

Ltac st_step :=
  rewrite St_bind_eq;
  cbn [attr gets modify random_seed state_obj random_gen with_gen].

(** C7 (as amended): with [speed > 0], [effect_disco] returns
    [([], False)] when [now - last_update < 1/speed]; otherwise, provided
    the bounds [[min(min_sparkle, N), min(max_sparkle, N)]] form an interval
    of counts (not empty, not negative), it returns [(buffer, True)] with
    [len(buffer) = N], the number of lit entries within that interval and
    every other entry [None]. *)
Theorem effect_disco_gate_and_lit_count
    {G : Type} `{RandomSource G} (s : EffectState) (g : G) (now : Q)
    (N : Z) :
  0 < speed s →
  let out := (effect_disco now N {| state_obj := s; random_gen := g |}).1 in
  (now - last_update s < 1 / speed s → out = Ok ([], false))
  ∧ (¬ now - last_update s < 1 / speed s →
     (0 ≤ Z.min (min_sparkle s) N ≤ Z.min (max_sparkle s) N)%Z →
     ∃ buffer,
       out = Ok (buffer, true)
       ∧ Z.of_nat (length buffer) = N
       ∧ (Z.min (min_sparkle s) N ≤ Z.of_nat (lit_count buffer)
          ≤ Z.min (max_sparkle s) N)%Z
       ∧ (lit_count buffer + unlit_count buffer = length buffer)%nat).
Proof.
  intros Hspeed.
  assert (py_div 1 (speed s) = Ok (1 / speed s)) as Hdiv.
  { unfold py_div. destruct (Qeq_bool _ _) eqn:E; [|done].
    apply Qeq_bool_iff in E. rewrite E in Hspeed.
    by apply Qlt_irrefl in Hspeed. }
  destruct (Qltb (now - last_update s) (1 / speed s)) eqn:Egate.
  - assert (effect_disco now N {| state_obj := s; random_gen := g |}
            = (Ok ([], false), {| state_obj := s; random_gen := g |})) as ->.
    { unfold effect_disco. do 2 st_step. rewrite St_bind_eq.
      cbn [lift]. by rewrite Hdiv, Egate. }
    apply Qltb_lt in Egate. by split.
  - apply Qltb_ge in Egate. cbv zeta. split.
    { intros Hlt. by apply Qlt_not_le in Hlt. }
    intros _ Hbounds. unfold effect_disco. do 2 st_step. rewrite St_bind_eq.
    cbn [lift]. rewrite Hdiv.
    apply Qltb_ge in Egate. rewrite Egate.
    do 3 st_step. rewrite St_bind_eq.
    set (min_lit := Z.min (min_sparkle s) N).
    set (max_lit := Z.min (max_sparkle s) N).
    unfold random_randint.
    replace (max_lit <? min_lit)%Z with false
      by (symmetry; apply Z.ltb_ge; lia).
    unfold draw at 1. cbn [random_gen].
    pose proof (rs_randint_range min_lit max_lit
                  (rs_seed (py_int (now * 1000000)))) as Hk.
    destruct (rs_randint _ _ _) as [num_lit g1]. simpl in Hk.
    specialize (Hk ltac:(lia)).
    rewrite St_bind_eq.
    unfold random_shuffle, draw at 1. cbn [random_gen with_gen state_obj].
    pose proof (rs_shuffle_perm (py_range N) g1) as Hperm.
    destruct (rs_shuffle _ _) as [all_indices g2]. simpl in Hperm.
    rewrite St_bind_eq.
    match goal with |- context [mapM ?f ?l ?st] =>
      destruct (disco_loop (list_to_set (py_slice_to all_indices num_lit))
                  l st) as (colors & st' & Hloop & Hlen & Hlit)
    end.
    rewrite Hloop. simpl.
    exists colors. split; [done|].
    assert (length (py_range N) = Z.to_nat N) as HlenN by apply length_seqZ.
    split; [lia|]. split; [|apply lit_unlit_length].
    rewrite Hlit. unfold py_slice_to.
    replace (num_lit <? 0)%Z with false by (symmetry; apply Z.ltb_ge; lia).
    rewrite lit_positions by done.
    rewrite length_take_le; [lia|].
    rewrite Hperm, HlenN. lia.
Qed.

End DiscoGate.

Module DiscoExamples.
Import Effects EffectsSpec DiscoRuns LcgSource.
#[local] Open Scope Q_scope.

Lemma effect_disco_gate_and_lit_count_witness :
  (effect_disco 0.5 10
     {| state_obj := EffectState_default; random_gen := 0%Z |}).1
  = Ok ([], false)
  ∧ ∃ buffer,
      (effect_disco 5 10
         {| state_obj := EffectState_default; random_gen := 0%Z |}).1
      = Ok (buffer, true)
      ∧ Z.of_nat (length buffer) = 10%Z
      ∧ (Z.min 1 10 ≤ Z.of_nat (lit_count buffer) ≤ Z.min 6 10)%Z
      ∧ (lit_count buffer + unlit_count buffer = length buffer)%nat.
Proof.
  split.
  - apply (DiscoGate.effect_disco_gate_and_lit_count
             EffectState_default 0%Z 0.5 10); reflexivity.
  - apply (DiscoGate.effect_disco_gate_and_lit_count
             EffectState_default 0%Z 5 10).
    + reflexivity.
    + intros Hlt. vm_compute in Hlt. discriminate.
    + simpl. lia.
Defined.

(** C1 as stated fails: at the dataclass defaults ([last_update = 0],
    [speed = 1]) and [now = 5] the gate is open and [effect_disco] fires,
    yet [last_update] is still [0] afterwards, not [5]. *)
Lemma effect_disco_fires_without_touching_last_update :
  let s := EffectState_default in
  1 / speed s <= 5 - last_update s
  ∧ ∃ buffer st',
      effect_disco 5 3 {| state_obj := s; random_gen := 0%Z |}
      = (Ok (buffer, true), st')
      ∧ last_update (state_obj st') = last_update s
      ∧ ¬ last_update (state_obj st') == 5.
Proof.
  cbv zeta. split; [by vm_compute|].
  eexists _, _. split; [vm_compute; reflexivity|].
  split; [reflexivity|]. by vm_compute.
Defined.

(** C7 as stated fails where the bounds do not form an interval of
    counts.  With [min_sparkle = 5 > max_sparkle = 2] on 10 LEDs the gate
    is open and [random.randint(5, 2)] raises [ValueError]: no buffer is
    returned.  With [min_sparkle = max_sparkle = -3] on 10 LEDs the slice
    [all_indices[:-3]] lights 7 LEDs, outside [[-3, -3]]. *)
Lemma effect_disco_outside_count_intervals :
  (0 < speed (with_sparkle 5 2)
   ∧ ¬ 5 - last_update (with_sparkle 5 2) < 1 / speed (with_sparkle 5 2)
   ∧ (effect_disco 5 10
        {| state_obj := with_sparkle 5 2; random_gen := 0%Z |}).1
     = Raise ValueError)
  ∧ ∃ buffer,
      (effect_disco 5 10
         {| state_obj := with_sparkle (-3) (-3); random_gen := 0%Z |}).1
      = Ok (buffer, true)
      ∧ lit_count buffer = 7%nat
      ∧ ¬ (Z.min (-3) 10 ≤ Z.of_nat (lit_count buffer) ≤ Z.min (-3) 10)%Z.
Proof.
  split.
  - split; [reflexivity|]. split; [|vm_compute; reflexivity].
    intros Hlt. vm_compute in Hlt. discriminate.
  - eexists. split; [vm_compute; reflexivity|].
    split; [vm_compute; reflexivity|].
    vm_compute. intros [_ Hhi]. by apply Hhi.
Qed.

End DiscoExamples.

(** ** PrinterState.update_from_status *)

Module StatusFacts.
Import State StatusSpec.

Lemma field_value_assign (f f' : field) (v : pyval) (st : RawPrinterState) :
  field_value f' (assign f v st)
  = if decide (f' = f) then v else field_value f' st.
Proof. by destruct st, f, f'. Qed.

Lemma field_value_put (f f' : field) (o : option pyval) st :
  field_value f' (put f o st)
  = if decide (f' = f) then from_option (stored f) (field_value f' st) o
    else field_value f' st.
Proof.
  destruct o as [v|]; simpl; [|by case_decide].
  rewrite field_value_assign. by case_decide.
Qed.

Lemma field_value_puts (sub : field → option pyval) (fs : list field)
    (f : field) (st : RawPrinterState) :
  field_value f (foldl (λ st f, put f (sub f) st) st fs)
  = if decide (f ∈ fs)
    then from_option (stored f) (field_value f st) (sub f)
    else field_value f st.
Proof.
  revert st. induction fs as [|f0 fs IH]; intros st; cbn [foldl].
  { by rewrite decide_False by apply not_elem_of_nil. }
  rewrite IH, field_value_put.
  destruct (decide (f = f0)) as [->|Hne].
  - rewrite (decide_True (P := f0 ∈ f0 :: fs)) by apply list_elem_of_here.
    case_decide; [|done]. by destruct (sub f0).
  - destruct (decide (f ∈ fs)) as [Hin|Hnin].
    + by rewrite decide_True by by apply list_elem_of_further.
    + rewrite decide_False; [done|]. by intros [?|?]%elem_of_cons.
Qed.

Lemma field_value_merged (status : gmap string pyval) (f : field) st :
  field_value f (merged status st)
  = from_option (stored f) (field_value f st) (sub_field status f).
Proof.
  unfold merged. rewrite field_value_puts.
  rewrite decide_True; [done|].
  unfold all_fields. destruct f; repeat constructor.
Qed.

(** One guarded assignment, by subscript and by [get]. *)
Lemma when_in_getitem (d : gmap string pyval) (k : string)
    (h : pyval → RawPrinterState → RawPrinterState) (st : RawPrinterState) :
  when_in k (PDict d)
    (v ← lift (py_getitem (PDict d) k); modify (h v)) st
  = (Ok tt, from_option (λ v, h v st) st (d !! k)).
Proof.
  unfold when_in. rewrite St_bind_eq. cbn [lift py_in].
  destruct (d !! k) as [v|] eqn:E.
  - rewrite bool_decide_true by by eexists.
    rewrite St_bind_eq. cbn [lift py_getitem]. by rewrite E.
  - rewrite bool_decide_false; [done|]. by intros [? ?].
Qed.

Lemma when_in_get (d : gmap string pyval) (k : string) (dflt : pyval)
    (h : pyval → RawPrinterState → RawPrinterState) (st : RawPrinterState) :
  when_in k (PDict d)
    (v ← lift (py_get (PDict d) k dflt); modify (h v)) st
  = (Ok tt, from_option (λ v, h v st) st (d !! k)).
Proof.
  unfold when_in. rewrite St_bind_eq. cbn [lift py_in].
  destruct (d !! k) as [v|] eqn:E.
  - rewrite bool_decide_true by by eexists.
    rewrite St_bind_eq. cbn [lift py_get]. by rewrite E.
  - rewrite bool_decide_false; [done|]. by intros [? ?].
Qed.


Lemma when_group_mapping (status : gmap string pyval) (g : string)
    (body : pyval → St RawPrinterState unit) (st post : RawPrinterState) :
  mapping_or_absent (status !! g) = true →
  (∀ d, status !! g = Some (PDict d) → body (PDict d) st = (Ok tt, post)) →
  (status !! g = None → post = st) →
  when_group status g body st = (Ok tt, post).
Proof.
  unfold when_group. intros Hwf Hdict Hnone.
  destruct (status !! g) as [[| | | | |d]|]; try discriminate.
  - by apply Hdict.
  - by rewrite Hnone.
Qed.

(** The coordinates are assigned together, from a list of three or more. *)
Lemma position_block (d : gmap string pyval) (st : RawPrinterState) :
  match d !! "position" with
  | None | Some (PList _) => true
  | Some _ => false
  end = true →
  when_in "position" (PDict d) (
    pos ← lift (py_getitem (PDict d) "position");
    n ← lift (py_len pos);
    if (3 <=? n)%nat then
      x ← lift (py_index pos 0);
      modify (set_position_x (py_or x (PNum 0)));;
      y ← lift (py_index pos 1);
      modify (set_position_y (py_or y (PNum 0)));;
      z ← lift (py_index pos 2);
      modify (set_position_z (py_or z (PNum 0)))
    else mret tt) st
  = (Ok tt,
     match d !! "position" with
     | Some (PList l) =>
         if (3 <=? length l)%nat then
           put Position_z (l !! 2%nat)
             (put Position_y (l !! 1%nat) (put Position_x (l !! 0%nat) st))
         else st
     | _ => st
     end).
Proof.
  intros Hlist. unfold when_in. rewrite St_bind_eq. cbn [lift py_in].
  destruct (d !! "position") as [p|] eqn:E.
  - rewrite bool_decide_true by by eexists.
    destruct p as [| | | |l|]; try discriminate.
    rewrite St_bind_eq. cbn [lift py_getitem]. rewrite E.
    rewrite St_bind_eq. cbn [lift py_len].
    destruct (3 <=? length l)%nat eqn:Elen; [|done].
    destruct l as [|x [|y [|z l]]]; try discriminate. reflexivity.
  - rewrite bool_decide_false; [done|]. by intros [? ?].
Qed.

Ltac put_of status fs st :=
  lazymatch fs with
  | [] => constr:(st)
  | ?f :: ?fs' =>
      let st' := constr:(put f (sub_field status f) st) in
      put_of status fs' st'
  end.

Ltac none_case E :=
  unfold sub_field; cbn [group_of]; rewrite E; reflexivity.

Ltac dict_case d E :=
  unfold sub_field; cbn [group_of position_index key_of]; rewrite E;
  repeat (try rewrite St_bind_eq;
          first [rewrite when_in_getitem | rewrite when_in_get];
          cbv beta iota);
  unfold put, stored; cbn [numeric assign];
  repeat match goal with |- context [d !! ?k] => destruct (d !! k) end;
  reflexivity.

(** Treat the group [g], which assigns the fields [fs]. *)
Ltac group_block status g fs :=
  lazymatch goal with
  | |- context [when_group status g ?body ?st] =>
      let cur := fresh "cur" in
      set (cur := st);
      let post := put_of status fs cur in
      let d := fresh "d" in
      let E := fresh "E" in
      rewrite (when_group_mapping status g body cur post);
      [ cbv beta iota; subst cur
      | assumption
      | intros d E; dict_case d E
      | intros E; none_case E ]
  end.

Lemma update_from_status_merged (status : gmap string pyval)
    (st : RawPrinterState) :
  groups_well_formed status = true →
  update_from_status status st = (Ok tt, merged status st).
Proof.
  unfold groups_well_formed, known_groups. cbn [forallb].
  rewrite !andb_true_iff.
  intros [(Hwh & Hps & Hds & Hhb & Hex & Hth & Hit & _) Hpos].
  unfold update_from_status, merged, all_fields. cbn [foldl].
  rewrite St_bind_eq. group_block status "webhooks" [Klipper_state].
  rewrite St_bind_eq. group_block status "print_stats" [Print_state; Filename].
  rewrite St_bind_eq. group_block status "display_status" [Progress].
  rewrite St_bind_eq. group_block status "heater_bed" [Bed_temp; Bed_target].
  rewrite St_bind_eq.
  group_block status "extruder" [Extruder_temp; Extruder_target].
  rewrite St_bind_eq.
  lazymatch goal with
  | |- context [when_group status "toolhead" ?body ?st] =>
      rewrite (when_group_mapping status "toolhead" body st
        (put Position_z (sub_field status Position_z)
          (put Position_y (sub_field status Position_y)
            (put Position_x (sub_field status Position_x) st))));
      [ cbv beta iota | assumption | intros d E | intros E; none_case E ]
  end.
  2:{ unfold position_is_list in Hpos. rewrite E in Hpos.
      rewrite position_block by done.
      unfold sub_field. cbn [group_of position_index]. rewrite E.
      destruct (d !! "position") as [[| | | |l|]|]; try reflexivity.
      by destruct (3 <=? length l)%nat. }
  group_block status "idle_timeout" [Idle_state].
  reflexivity.
Qed.

(** C4 (as amended): on a status whose recognised groups, where present,
    are mappings (and whose [position], where present, is a list),
    [update_from_status] returns without raising; a field whose group is
    absent, or whose sub-key is absent from its group, keeps its value; a
    numeric sub-field carried as [None] is stored as [0.0]; and a key that
    is not a recognised group changes nothing. *)
Theorem update_from_status_lenient_on_mappings
    (status : gmap string pyval) (st : RawPrinterState) :
  groups_well_formed status = true →
  ∃ st',
    update_from_status status st = (Ok tt, st')
    ∧ (∀ f, status !! group_of f = None →
            field_value f st' = field_value f st)
    ∧ (∀ f d, status !! group_of f = Some (PDict d) →
              d !! key_of f = None →
              field_value f st' = field_value f st)
    ∧ (∀ f, numeric f = true → sub_field status f = Some PNone →
            field_value f st' = PNum 0)
    ∧ (∀ k v, k ∉ known_groups →
              update_from_status (<[k:=v]> status) st = (Ok tt, st')).
Proof.
  intros Hwf. exists (merged status st).
  split; [by apply update_from_status_merged|].
  split; [|split; [|split]].
  - intros f Hg. rewrite field_value_merged. unfold sub_field. by rewrite Hg.
  - intros f d Hg Hk. rewrite field_value_merged. unfold sub_field.
    rewrite Hg. destruct f; cbn [position_index key_of] in *; by rewrite Hk.
  - intros f Hnum Hsub. rewrite field_value_merged, Hsub.
    unfold stored. by rewrite Hnum.
  - intros k v Hk. rewrite <- (update_from_status_merged status st Hwf).
    unfold update_from_status, when_group.
    rewrite !lookup_insert_ne; [done|..];
      intros ->; apply Hk; unfold known_groups; set_solver.
Qed.

(** C4 as stated fails: a recognised group that is not a mapping makes
    [update_from_status] raise; [{"webhooks": None}] on the default state
    raises [TypeError], and so does [{"toolhead": {"position": None}}]. *)
Lemma update_from_status_raises_on_null_group :
  (update_from_status {["webhooks" := PNone]} (raw PrinterState_default)).1
  = Raise TypeError
  ∧ (update_from_status {["toolhead" := PDict {["position" := PNone]}]}
       (raw PrinterState_default)).1
    = Raise TypeError.
Proof. split; vm_compute; reflexivity. Qed.

Lemma update_from_status_lenient_on_mappings_witness :
  let status : gmap string pyval :=
    {[ "heater_bed" := PDict {[ "target" := PNone; "temperature" := PNum 60 ]};
       "fan" := PNone ]} in
  let st := raw PrinterState_default in
  ∃ st',
    update_from_status status st = (Ok tt, st')
    ∧ (∀ f, status !! group_of f = None →
            field_value f st' = field_value f st)
    ∧ (∀ f d, status !! group_of f = Some (PDict d) →
              d !! key_of f = None →
              field_value f st' = field_value f st)
    ∧ (∀ f, numeric f = true → sub_field status f = Some PNone →
            field_value f st' = PNum 0)
    ∧ (∀ k v, k ∉ known_groups →
              update_from_status (<[k:=v]> status) st = (Ok tt, st')).
Proof.
  cbv zeta. apply update_from_status_lenient_on_mappings.
  vm_compute. reflexivity.
Defined.

End StatusFacts.

(** ** StateDetector *)

Module DetectorFacts.
Import State DetectorSpec.
#[local] Open Scope Q_scope.

(** Run a block of assignments to the detector on a store built from
    constructors. *)
Ltac run_on_self :=
  match goal with
  | |- context [on_self ?m ?s] =>
      let r := eval vm_compute in (on_self m s) in
      change (on_self m s) with r
  end.

Section Detector.
Context {W : Type}.
Implicit Types (d : StateDetector W) (w : W) (state : PrinterState).


(** The notification loop calls the listeners in registration order, each
    on what its predecessors left, and does not touch the detector. *)
Lemma notify_all (e : PrinterEvent) (listeners : list (EventCallback W)) d w :
  for_each listeners (λ callback, try_pass (call callback e)) (d, w)
  = ((notify e listeners w).1, (d, (notify e listeners w).2)).
Proof.
  revert w. induction listeners as [|callback listeners IH]; intros w.
  { reflexivity. }
  cbn [for_each notify]. rewrite St_bind_eq.
  unfold try_pass at 1, call at 1.
  destruct (callback e w) as [[[]|err] w']; [apply IH|].
  destruct (is_exception err); [apply IH | reflexivity].
Qed.

(** Listeners whose failures derive from [Exception] are all called. *)
Lemma notify_caught (e : PrinterEvent) (listeners : list (EventCallback W)) w :
  Forall raises_only_exceptions listeners →
  notify e listeners w
  = (Ok tt, foldl (λ w callback, (callback e w).2) w listeners).
Proof.
  revert w. induction listeners as [|callback listeners IH]; intros w Hall.
  { reflexivity. }
  apply Forall_cons in Hall as [Hcb Hall]. cbn [notify foldl].
  specialize (Hcb e w).
  destruct (callback e w) as [[[]|err] w']; cbn [fst snd] in *;
    [by apply IH|].
  rewrite (Hcb err eq_refl). by apply IH.
Qed.

(** The first exception outside [Exception] ends the round. *)
Lemma notify_escape (e : PrinterEvent)
    (before after : list (EventCallback W)) (callback : EventCallback W)
    (b : exn) w :
  Forall raises_only_exceptions before →
  (callback e (foldl (λ w callback, (callback e w).2) w before)).1 = Raise b →
  is_exception b = false →
  notify e (before ++ callback :: after) w
  = (Raise b,
     (callback e (foldl (λ w callback, (callback e w).2) w before)).2).
Proof.
  revert w. induction before as [|c before IH]; intros w Hall Hb Hesc.
  - cbn [app notify foldl] in *.
    destruct (callback e w) as [[[]|err] w']; cbn [fst snd] in *;
      [discriminate|].
    injection Hb as ->. by rewrite Hesc.
  - apply Forall_cons in Hall as [Hc Hall]. cbn [app notify foldl] in *.
    specialize (Hc e w).
    destruct (c e w) as [[[]|err] w']; cbn [fst snd] in *;
      [by apply IH|].
    rewrite (Hc err eq_refl). by apply IH.
Qed.

(** After listeners whose failures derive from [Exception], a last one
    is called on what they left. *)
Lemma notify_after (e : PrinterEvent) (listeners : list (EventCallback W))
    (callback : EventCallback W) w :
  Forall raises_only_exceptions listeners →
  notify e (listeners ++ [callback]) w
  = notify e [callback] (foldl (λ w callback, (callback e w).2) w listeners).
Proof.
  revert w. induction listeners as [|c listeners IH]; intros w Hall.
  { reflexivity. }
  apply Forall_cons in Hall as [Hc Hall].
  change ((c :: listeners) ++ [callback]) with (c :: (listeners ++ [callback])).
  cbn [notify foldl]. specialize (Hc e w).
  destruct (c e w) as [[[]|err] w']; cbn [fst snd] in *; [by apply IH|].
  rewrite (Hc err eq_refl). by apply IH.
Qed.

(** A round ends normally or with an exception outside [Exception]. *)
Lemma notify_outcome (e : PrinterEvent) (listeners : list (EventCallback W))
    w :
  (notify e listeners w).1 = Ok tt
  ∨ ∃ b, is_exception b = false ∧ (notify e listeners w).1 = Raise b.
Proof.
  revert w. induction listeners as [|callback listeners IH]; intros w.
  { by left. }
  cbn [notify]. destruct (callback e w) as [[[]|err] w']; [apply IH|].
  destruct (is_exception err) eqn:E; [apply IH|]. right. by exists err.
Qed.

Lemma _transition_spec (new_event : PrinterEvent) (now : Q) d w :
  ∃ d',
    _transition new_event now (d, w)
    = ((notify new_event (_listeners d) w).1,
       (d', (notify new_event (_listeners d) w).2))
    ∧ _current_event d' = new_event
    ∧ _previous_event d' = _current_event d
    ∧ _listeners d' = _listeners d.
Proof.
  unfold _transition. destruct d as [a1 a2 a3 cur prev ls idle bored].
  destruct new_event;
    do 2 (rewrite St_bind_eq; run_on_self; cbv beta iota);
    rewrite notify_all; by eexists.
Qed.


(** C6 (as amended): a transition assigns [_previous_event] and
    [_current_event] first.  When the failures of the listeners derive
    from [Exception], it then runs every listener once with the new event,
    in registration order, each on what the ones before it left, whether
    those returned or raised, and no exception leaves [_transition].  An
    exception outside [Exception] is not caught: the first listener that
    raises one ends the round, the listeners after it are not called, and
    the exception leaves [_transition], the two fields being assigned. *)
Theorem transition_isolates_listener_failures new_event now d w :
  ∃ d',
    (_transition new_event now (d, w)).2.1 = d'
    ∧ current_event d' = new_event
    ∧ _previous_event d' = current_event d
    ∧ (Forall raises_only_exceptions (_listeners d) →
       _transition new_event now (d, w)
       = (Ok tt, (d', foldl (λ w callback, (callback new_event w).2) w
                        (_listeners d))))
    ∧ (∀ before callback after b,
         _listeners d = before ++ callback :: after →
         Forall raises_only_exceptions before →
         (callback new_event
            (foldl (λ w callback, (callback new_event w).2) w before)).1
         = Raise b →
         is_exception b = false →
         _transition new_event now (d, w)
         = (Raise b,
            (d', (callback new_event
                    (foldl (λ w callback, (callback new_event w).2) w
                       before)).2))).
Proof.
  destruct (_transition_spec new_event now d w)
    as (d' & Htr & Hnew & Hprev & _).
  exists d'. rewrite Htr. cbn [fst snd]. repeat split; try done.
  - intros Hall. by rewrite (notify_caught new_event _ w Hall).
  - intros before callback after b -> Hall Hb Hesc.
    by rewrite (notify_escape new_event before after callback b w Hall Hb Hesc).
Qed.

End Detector.

Lemma record_event_raises_nothing : raises_only_exceptions record_event.
Proof. by intros e w b. Qed.

Lemma failing_raises_exception : raises_only_exceptions failing.
Proof. by intros e w b [= <-]. Qed.

Lemma transition_isolates_listener_failures_witness :
  let d :=
    set_listeners [record_event; failing; record_event]
      (StateDetector_init 25 300 600 1000) in
  ∃ d',
    _transition PRINTING 1001 (d, []) = (Ok tt, (d', [PRINTING; PRINTING]))
    ∧ current_event d' = PRINTING
    ∧ _previous_event d' = IDLE.
Proof.
  cbv zeta.
  destruct (transition_isolates_listener_failures PRINTING 1001
              (set_listeners [record_event; failing; record_event]
                 (StateDetector_init 25 300 600 1000)) [])
    as (d' & _ & Hnew & Hprev & Hcaught & _).
  exists d'. split; [|by split]. apply Hcaught.
  repeat constructor;
    [apply record_event_raises_nothing | apply failing_raises_exception
    | apply record_event_raises_nothing].
Defined.

(** C6 as stated fails: a listener that raises [KeyboardInterrupt], which
    [except Exception] does not catch, ends the round.  With the listeners
    [record; interrupting; record] the transition to [PRINTING] raises
    [KeyboardInterrupt], and only the first listener has been called. *)
Lemma transition_interrupted_by_listener :
  let d :=
    set_listeners [record_event; interrupting; record_event]
      (StateDetector_init 25 300 600 1000) in
  ∃ d',
    _transition PRINTING 1001 (d, [])
    = (Raise KeyboardInterrupt, (d', [PRINTING]))
    ∧ current_event d' = PRINTING
    ∧ _previous_event d' = IDLE.
Proof. cbv zeta. eexists. split; [vm_compute; reflexivity|done]. Qed.




End DetectorFacts.

(** ** The pluggable detectors *)

Module PluggableFacts.
Import States TelemetrySpec.
#[local] Open Scope Q_scope.

Lemma get_target (status : gmap string pyval) (g : string) :
  leaf_typed status g "target" is_number = true →
  py_get (default (PDict ∅) (status !! g)) "target" (PNum 0)
  = Ok (PNum (heater_target status g)).
Proof.
  unfold leaf_typed, heater_target.
  destruct (status !! g) as [[| | | | |d]|]; try discriminate; simpl.
  - by destruct (d !! "target") as [[]|].
  - by rewrite lookup_empty.
Qed.

Lemma get_state (status : gmap string pyval) (g : string) :
  leaf_typed status g "state" is_string = true →
  py_get (default (PDict ∅) (status !! g)) "state" (PStr "")
  = Ok (PStr (sub_state status g)).
Proof.
  unfold leaf_typed, sub_state.
  destruct (status !! g) as [[| | | | |d]|]; try discriminate; simpl.
  - by destruct (d !! "state") as [[]|].
  - by rewrite lookup_empty.
Qed.

Lemma res_bind_ok {A B} (a : A) (f : A → res B) : (Ok a ≫= f) = f a.
Proof. reflexivity. Qed.

Ltac res_step := cbv beta iota; rewrite ?res_bind_ok; cbv beta iota.

Lemma py_gt_zero (q : Q) : py_gt (PNum q) (PNum 0) = Ok (Qltb 0 q).
Proof. reflexivity. Qed.

(** One comparison [target > 0] on a typed target. *)
Ltac target_positive H E :=
  rewrite (get_target _ _ H); res_step;
  rewrite py_gt_zero; res_step;
  match goal with
  | |- context [Qltb 0 (heater_target ?s ?g)] =>
      destruct (Qltb 0 (heater_target s g)) eqn:E
  end; res_step.

(** One test on a lowered sub-state. *)
Ltac lowered_state H :=
  rewrite (get_state _ _ H); res_step; cbn [py_lower]; res_step.

Lemma lower_printing_paused (s : string) :
  s ∈ ["printing"; "paused"] → lower s ∈ ["printing"; "paused"].
Proof.
  intros [->|[->|[]%elem_of_nil]%elem_of_cons]%elem_of_cons;
    vm_compute lower; set_solver.
Qed.

(** The guard, as both [detect] methods evaluate it. *)
Ltac guard_returns_false :=
  lazymatch goal with
  | Htyped : typed_telemetry ?status = true, Hguard : guard_trips ?status
    |- _ =>
      let Hext := fresh "Hext" in let Hbed := fresh "Hbed" in
      let Hps := fresh "Hps" in let Hit := fresh "Hit" in
      let E1 := fresh "E" in let E2 := fresh "E" in
      let E3 := fresh "E" in let E4 := fresh "E" in
      unfold typed_telemetry in Htyped; rewrite !andb_true_iff in Htyped;
      destruct Htyped as [[[Hext Hbed] Hps] Hit];
      destruct (no_context _); [done|]; cbv zeta;
      target_positive Hext E1; [done|];
      target_positive Hbed E2; [done|];
      lowered_state Hps; case_bool_decide as E3; [done|];
      lowered_state Hit;
      destruct (String.eqb _ "error") eqn:E4; [done|];
      exfalso; apply Qltb_ge in E1, E2;
      destruct Hguard as [Hg|[Hg|[Hg|Hg]]];
      [ by apply Qlt_not_le in Hg
      | by apply Qlt_not_le in Hg
      | by apply E3, lower_printing_paused
      | by rewrite Hg in E4 ]
  end.

(** C9 (as amended): on typed telemetry, if a heater target is set (the
    extruder's or the bed's is above 0), or the print sub-state is
    ["printing"] or ["paused"], or the idle-timeout sub-state is ["error"],
    then both [BoredDetector.detect] and [SleepDetector.detect] return
    [False], whatever the timing context. *)
Theorem guard_blocks_bored_and_sleep
    (status : gmap string pyval) (context : option (gmap string pyval)) :
  typed_telemetry status = true →
  guard_trips status →
  BoredDetector.detect status context = Ok false
  ∧ SleepDetector.detect status context = Ok false.
Proof.
  intros Htyped Hguard. split.
  - unfold BoredDetector.detect. guard_returns_false.
  - unfold SleepDetector.detect. guard_returns_false.
Qed.

Lemma guard_blocks_bored_and_sleep_witness :
  let status : gmap string pyval :=
    {[ "extruder" := PDict {[ "target" := PNum 0; "temperature" := PNum 24 ]};
       "heater_bed" := PDict {[ "target" := PNum 60 ]};
       "print_stats" := PDict {[ "state" := PStr "standby" ]} ]} in
  let context : option (gmap string pyval) :=
    Some {[ "last_state" := PStr "bored"; "state_enter_time" := PNum 0;
            "current_time" := PNum 1000; "bored_timeout" := PNum 300;
            "sleep_timeout" := PNum 600 ]} in
  BoredDetector.detect status context = Ok false
  ∧ SleepDetector.detect status context = Ok false.
Proof.
  cbv zeta. apply guard_blocks_bored_and_sleep.
  - vm_compute. reflexivity.
  - right. left. vm_compute. reflexivity.
Defined.

(** C9 as stated fails on untyped telemetry: with the bed target set to 60
    and an extruder target that is [None], both [detect] methods raise
    [TypeError] at [extruder.get('target', 0) > 0]. *)
Lemma detect_raises_on_null_target :
  let status : gmap string pyval :=
    {[ "extruder" := PDict {[ "target" := PNone ]};
       "heater_bed" := PDict {[ "target" := PNum 60 ]} ]} in
  let context : option (gmap string pyval) :=
    Some {[ "last_state" := PStr "idle"; "state_enter_time" := PNum 0;
            "current_time" := PNum 1000 ]} in
  0 < heater_target status "heater_bed"
  ∧ guard_trips status
  ∧ BoredDetector.detect status context = Raise TypeError
  ∧ SleepDetector.detect status context = Raise TypeError.
Proof.
  cbv zeta. split; [vm_compute; reflexivity|].
  split; [right; left; vm_compute; reflexivity|].
  split; vm_compute; reflexivity.
Qed.

End PluggableFacts.

(** * Further properties *)

(** ** Colour interpolation *)

Module LerpFacts.
Import Effects MoreSpec.
#[local] Open Scope Q_scope.

Lemma lerp_channel_between (a b t : Q) :
  0 <= t → t <= 1 → between (a + (b - a) * t) a b.
Proof.
  intros H0 H1. unfold between.
  destruct (Qlt_le_dec b a) as [Hba|Hab]; [right | left]; split; nra.
Qed.

(** X1: [_lerp_color] returns [color1] at [t = 0] and [color2] at [t = 1], and
    for [0 <= t <= 1] each channel lies between the two channels it blends:
    the blend never leaves the segment. *)
Theorem lerp_color_endpoints_and_range (color1 color2 : RGB) (t : Q) :
  same_color (_lerp_color color1 color2 0) color1
  ∧ same_color (_lerp_color color1 color2 1) color2
  ∧ (0 <= t → t <= 1 →
     between (_lerp_color color1 color2 t).1.1 color1.1.1 color2.1.1
     ∧ between (_lerp_color color1 color2 t).1.2 color1.1.2 color2.1.2
     ∧ between (_lerp_color color1 color2 t).2 color1.2 color2.2).
Proof.
  destruct color1 as [[r1 g1] b1], color2 as [[r2 g2] b2].
  unfold same_color. cbn [_lerp_color fst snd].
  split; [repeat split; ring|]. split; [repeat split; ring|].
  intros H0 H1. repeat split; by apply lerp_channel_between.
Qed.

Lemma lerp_color_endpoints_and_range_witness :
  between (_lerp_color (0.5, 0.5, 0.5) (0, 1, 0) 0.25).1.1 0.5 0
  ∧ between (_lerp_color (0.5, 0.5, 0.5) (0, 1, 0) 0.25).1.2 0.5 1
  ∧ between (_lerp_color (0.5, 0.5, 0.5) (0, 1, 0) 0.25).2 0.5 0.
Proof.
  apply (lerp_color_endpoints_and_range (0.5, 0.5, 0.5) (0, 1, 0) 0.25);
    by vm_compute.
Defined.

End LerpFacts.

(** ** effect_pulse over time *)

Module PulseRange.
Import Effects.

(** X2: With [min_brightness <= max_brightness] the pulse brightness stays
    within the two bounds at every time. *)
Theorem pulse_brightness_within_bounds (s : EffectState) (now : Q) :
  (Q2R (min_brightness s) <= Q2R (max_brightness s))%R →
  (Q2R (min_brightness s) <= pulse_brightness s now
   <= Q2R (max_brightness s))%R.
Proof.
  intros Hle. unfold pulse_brightness. cbv zeta.
  match goal with |- context [sin ?x] =>
    pose proof (SIN_bound x) as [Hlo Hhi]; set (v := sin x) in *
  end.
  split; Lra.nra.
Qed.

Lemma pulse_brightness_within_bounds_witness :
  (Q2R 0.2 <= pulse_brightness EffectState_default 3.7 <= Q2R 1)%R.
Proof.
  apply (pulse_brightness_within_bounds EffectState_default 3.7).
  apply Qle_Rle. by vm_compute.
Defined.

(** X3: The pulse repeats every [1/speed] seconds. *)
Theorem pulse_brightness_periodic (s : EffectState) (now : Q) :
  ¬ speed s == 0 →
  pulse_brightness s (now + 1 / speed s) = pulse_brightness s now.
Proof.
  intros Hspeed. unfold pulse_brightness. cbv zeta.
  assert (Q2R (speed s) ≠ 0%R) as Hs.
  { intros E. apply Hspeed. apply eqR_Qeq. by rewrite E, RMicromega.Q2R_0. }
  replace (Q2R (now + 1 / speed s - start_time s) * Q2R (speed s) * 2 * PI)%R
    with (Q2R (now - start_time s) * Q2R (speed s) * 2 * PI + 2 * INR 1 * PI)%R.
  { by rewrite sin_period. }
  rewrite !Q2R_minus, Q2R_plus, Q2R_div, RMicromega.Q2R_1 by done.
  simpl INR. field. done.
Qed.

Lemma pulse_brightness_periodic_witness :
  pulse_brightness EffectState_default (3.7 + 1 / 1)
  = pulse_brightness EffectState_default 3.7.
Proof.
  apply (pulse_brightness_periodic EffectState_default 3.7).
  intros E. vm_compute in E. discriminate.
Defined.

End PulseRange.

(** ** Float modulo and the heartbeat cycle *)

Module CycleFacts.
Import Effects.
#[local] Open Scope Q_scope.

Lemma Qeq_bool_ne (a b : Q) : ¬ a == b → Qeq_bool a b = false.
Proof.
  intros Hne. apply not_true_iff_false. intros E.
  by apply Hne, Qeq_bool_eq.
Qed.

(** The floor is the only integer within one below. *)
Lemma Qmod_div (a b : Q) :
  ¬ b == 0 → Qmod a b / b == a / b - inject_Z (Qfloor (a / b)).
Proof. intros Hb. unfold Qmod. by field. Qed.

Lemma frac_range (x : Q) :
  0 <= x - inject_Z (Qfloor x) ∧ x - inject_Z (Qfloor x) < 1.
Proof.
  pose proof (Qfloor_le x). pose proof (Qlt_floor x) as H1.
  rewrite inject_Z_plus in H1. change (inject_Z 1) with 1 in H1. split; lra.
Qed.

Lemma heartbeat_phase_value (s : EffectState) (now : Q) :
  ¬ speed s == 0 →
  ∃ phase,
    heartbeat_phase s now = Ok phase
    ∧ phase == (now - start_time s) * speed s
               - inject_Z (Qfloor ((now - start_time s) / (1 / speed s))).
Proof.
  intros Hspeed. unfold heartbeat_phase, py_div, py_mod.
  assert (¬ 1 / speed s == 0) as Hcycle.
  { intros E. assert (speed s * (1 / speed s) == 1) as H1 by by field.
    rewrite E in H1. lra. }
  rewrite (Qeq_bool_ne _ _ Hspeed). cbn [mbind res_bind].
  rewrite (Qeq_bool_ne _ _ Hcycle). cbn [mbind res_bind].
  eexists. split; [reflexivity|].
  rewrite Qmod_div by done.
  assert ((now - start_time s) / (1 / speed s)
          == (now - start_time s) * speed s) as E by by field.
  by rewrite E at 1.
Qed.

(** X4: [effect_heartbeat] raises [ZeroDivisionError] when [speed] is zero;
    otherwise (also for a negative [speed]) it returns, and the phase it
    works with lies in [[0, 1)]. *)
Theorem heartbeat_phase_in_unit_interval (s : EffectState) (now : Q) :
  (speed s == 0 → effect_heartbeat s now = Raise ZeroDivisionError)
  ∧ (¬ speed s == 0 →
     ∃ phase rgb,
       heartbeat_phase s now = Ok phase
       ∧ 0 <= phase ∧ phase < 1
       ∧ effect_heartbeat s now = Ok rgb).
Proof.
  split.
  - intros E. unfold effect_heartbeat, heartbeat_phase, py_div.
    by rewrite (proj2 (Qeq_bool_iff _ _) E).
  - intros Hspeed.
    destruct (heartbeat_phase_value s now Hspeed) as (phase & Hph & Hval).
    assert ((now - start_time s) / (1 / speed s)
            == (now - start_time s) * speed s) as E by by field.
    pose proof (frac_range ((now - start_time s) / (1 / speed s))) as [H0 H1].
    exists phase. unfold effect_heartbeat. rewrite Hph. cbn [mbind res_bind].
    destruct (base_color s) as [[r g] b]. eexists.
    split; [done|]. rewrite Hval, <- E at 1. split; [done|].
    split; [|done]. by rewrite Hval, <- E at 1.
Qed.

Lemma heartbeat_phase_in_unit_interval_witness :
  ∃ phase rgb,
    heartbeat_phase EffectState_default 7.3 = Ok phase
    ∧ 0 <= phase ∧ phase < 1
    ∧ effect_heartbeat EffectState_default 7.3 = Ok rgb.
Proof.
  apply (heartbeat_phase_in_unit_interval EffectState_default 7.3).
  intros E. vm_compute in E. discriminate.
Defined.

(** X5: With [min_brightness <= max_brightness] the heartbeat brightness is
    never below [min_brightness] at a phase [>= 0]; it is [min_brightness]
    through the rest (phase [>= 0.35]), and at most [max_brightness]
    everywhere but on the second rise (phase in [[0.20, 0.25)]). *)
Theorem heartbeat_brightness_bounds (s : EffectState) (phase : Q) :
  min_brightness s <= max_brightness s →
  0 <= phase →
  min_brightness s <= heartbeat_brightness s phase
  ∧ (0.35 <= phase → heartbeat_brightness s phase == min_brightness s)
  ∧ (phase < 0.20 ∨ 0.25 <= phase →
     heartbeat_brightness s phase <= max_brightness s).
Proof.
  intros Hle Hph. unfold heartbeat_brightness.
  unfold HEARTBEAT_FIRST_PULSE_DURATION, HEARTBEAT_DIP_DURATION,
    HEARTBEAT_SECOND_PULSE_DURATION, HEARTBEAT_FADE_DURATION,
    HEARTBEAT_SECOND_PULSE_INTENSITY.
  set (lo := min_brightness s) in *. set (hi := max_brightness s) in *.
  repeat match goal with
  | |- context [Qltb ?a ?b] =>
      let E := fresh "E" in
      destruct (Qltb a b) eqn:E;
      [apply Qltb_lt in E | apply Qltb_ge in E]
  end; cbv zeta; unfold Qdiv;
  repeat match goal with
  | |- context [/ ?q] =>
      let v := eval vm_compute in (/ q) in change (/ q) with v
  end;
  (split; [nra | split; [intros ?; first [ring | exfalso; lra]
                        | intros [?|?]; first [nra | exfalso; lra]]]).
Qed.

Lemma heartbeat_brightness_bounds_witness :
  0.2 <= heartbeat_brightness EffectState_default 0.18
  ∧ (0.35 <= 0.18 →
     heartbeat_brightness EffectState_default 0.18 == 0.2)
  ∧ (0.18 < 0.20 ∨ 0.25 <= 0.18 →
     heartbeat_brightness EffectState_default 0.18 <= 1).
Proof.
  apply (heartbeat_brightness_bounds EffectState_default 0.18); by vm_compute.
Defined.

End CycleFacts.

(** ** The colours and the generator of effect_disco *)

Module DiscoColours.
Import Effects EffectsSpec MoreSpec CycleFacts.
#[local] Open Scope Q_scope.

Lemma hue_x_range (h c : Q) :
  0 <= c →
  0 <= c * (1 - Qabs (Qmod h 2 - 1)) ∧ c * (1 - Qabs (Qmod h 2 - 1)) <= c.
Proof.
  intros Hc.
  assert (0 <= Qmod h 2 ∧ Qmod h 2 < 2) as [Hm0 Hm2].
  { unfold Qmod. pose proof (frac_range (h / 2)) as [H0 H1].
    set (f := inject_Z (Qfloor (h / 2))) in *.
    assert (h / 2 == h * (1 # 2)) as E by by field.
    rewrite E in H0, H1. split; lra. }
  pose proof (Qabs_nonneg (Qmod h 2 - 1)) as Ha0.
  assert (Qabs (Qmod h 2 - 1) <= 1) as Ha1.
  { apply Qabs_Qle_condition. split; simpl; lra. }
  set (a := Qabs (Qmod h 2 - 1)) in *. split; nra.
Qed.

(** X6: The conversion used for a lit LED is HSV at saturation 1: for a value
    [c >= 0] and any hue, every channel lies in [[0, c]], one channel is
    [c] itself and one is [0]. *)
Theorem hue_color_saturated (hue c : Q) :
  0 <= c →
  channels_within c (hue_color hue c)
  ∧ ((hue_color hue c).1.1 = c ∨ (hue_color hue c).1.2 = c
     ∨ (hue_color hue c).2 = c)
  ∧ ((hue_color hue c).1.1 = 0 ∨ (hue_color hue c).1.2 = 0
     ∨ (hue_color hue c).2 = 0).
Proof.
  intros Hc. pose proof (hue_x_range (hue * 6) c Hc) as [Hx0 Hxc].
  unfold hue_color, channels_within. cbv zeta.
  set (x := c * (1 - Qabs (Qmod (hue * 6) 2 - 1))) in *.
  repeat match goal with
  | |- context [if Qltb ?a ?b then _ else _] => destruct (Qltb a b)
  end; cbn [fst snd]; repeat split; try lra; auto.
Qed.

Lemma hue_color_saturated_witness :
  channels_within 0.8 (hue_color 0.3 0.8)
  ∧ ((hue_color 0.3 0.8).1.1 = 0.8 ∨ (hue_color 0.3 0.8).1.2 = 0.8
     ∨ (hue_color 0.3 0.8).2 = 0.8)
  ∧ ((hue_color 0.3 0.8).1.1 = 0 ∨ (hue_color 0.3 0.8).1.2 = 0
     ∨ (hue_color 0.3 0.8).2 = 0).
Proof. apply (hue_color_saturated 0.3 0.8). by vm_compute. Defined.

Section Generator.
Context {G : Type} `{RandomSource G}.

(** The loop of [effect_disco]: it returns, it leaves the [EffectState]
    alone, and each entry it appends is [None] or the conversion of a hue
    drawn from [[0, 1)] at value [max_brightness]. *)
Lemma disco_loop_colours (lit_indices : gset Z) (l : list Z)
    (st : DiscoStore G) :
  ∃ colors st',
    mapM (λ i : Z,
        if bool_decide (i ∈ lit_indices) then
          hue ← random_random;
          c ← attr max_brightness;
          mret (Some (hue_color hue c))
        else mret None) l st
    = (Ok colors, st')
    ∧ state_obj st' = state_obj st
    ∧ Forall (λ o, ∀ rgb, o = Some rgb →
                ∃ hue, (0 <= hue ∧ hue < 1)
                       ∧ rgb = hue_color hue (max_brightness (state_obj st)))
        colors.
Proof.
  revert st. induction l as [|i l IH]; intros st.
  { exists [], st. by repeat split. }
  rewrite mapM_cons_eq.
  set (body := λ i : Z, if bool_decide (i ∈ lit_indices) then _ else _).
  assert (∃ c st1,
            body i st = (Ok c, st1) ∧ state_obj st1 = state_obj st
            ∧ ∀ rgb, c = Some rgb →
                ∃ hue, (0 <= hue ∧ hue < 1)
                       ∧ rgb = hue_color hue (max_brightness (state_obj st)))
    as (c & st1 & Hbody & Hst1 & Hc).
  { unfold body. case_bool_decide as Hi.
    - unfold random_random, draw. rewrite St_bind_eq.
      pose proof (rs_random_unit (random_gen st)) as Hunit.
      destruct (rs_random _) as [hue g']. cbn [fst] in Hunit.
      eexists _, _. split; [reflexivity|]. split; [done|].
      intros rgb [= <-]. by exists hue.
    - eexists None, st. by repeat split. }
  rewrite (St_bind_ok _ _ _ _ _ Hbody).
  destruct (IH st1) as (colors & st' & Hloop & Hst & Hall).
  rewrite (St_bind_ok _ _ _ _ _ Hloop).
  exists (c :: colors), st'. split; [done|].
  split; [by rewrite Hst|]. constructor; [done|].
  by rewrite <- Hst1.
Qed.

Lemma effect_disco_cases (s : EffectState) (g : G) (now : Q) (N : Z) :
  effect_disco now N {| state_obj := s; random_gen := g |}
  = if Qeq_bool (speed s) 0 then
      (Raise ZeroDivisionError, {| state_obj := s; random_gen := g |})
    else if Qltb (now - last_update s) (1 / speed s) then
      (Ok ([], false), {| state_obj := s; random_gen := g |})
    else fired s now N.
Proof.
  unfold effect_disco, fired.
  do 2 (rewrite St_bind_eq; cbn [attr gets state_obj]).
  rewrite St_bind_eq. unfold py_div. cbn [lift].
  destruct (Qeq_bool (speed s) 0); [done|].
  destruct (Qltb _ _); [done|].
  rewrite !(St_bind_eq (random_seed _)). reflexivity.
Qed.

End Generator.

(** X7: A call of [effect_disco] that does not fire touches nothing: with
    [speed = 0] it raises [ZeroDivisionError], and within the interval it
    returns [([], False)]; either way the [EffectState] and the generator of
    [random] are as before (no reseeding). *)
Theorem effect_disco_idle_call_touches_nothing
    {G : Type} `{RandomSource G} (s : EffectState) (g : G) (now : Q)
    (N : Z) :
  (speed s == 0 →
   effect_disco now N {| state_obj := s; random_gen := g |}
   = (Raise ZeroDivisionError, {| state_obj := s; random_gen := g |}))
  ∧ (¬ speed s == 0 → now - last_update s < 1 / speed s →
     effect_disco now N {| state_obj := s; random_gen := g |}
     = (Ok ([], false), {| state_obj := s; random_gen := g |})).
Proof.
  rewrite effect_disco_cases. split.
  - intros E. by rewrite (proj2 (Qeq_bool_iff _ _) E).
  - intros Hne Hlt. rewrite (Qeq_bool_ne _ _ Hne).
    by rewrite (proj2 (Qltb_lt _ _) Hlt).
Qed.

(** X8: The outcome of [effect_disco], and the generator it leaves when it
    fires, do not depend on the state the generator was in: a firing call
    reseeds from [now] before it draws. *)
Theorem effect_disco_ignores_generator_state
    {G : Type} `{RandomSource G} (s : EffectState) (g g' : G) (now : Q)
    (N : Z) :
  (effect_disco now N {| state_obj := s; random_gen := g |}).1
  = (effect_disco now N {| state_obj := s; random_gen := g' |}).1
  ∧ (¬ speed s == 0 → ¬ now - last_update s < 1 / speed s →
     effect_disco now N {| state_obj := s; random_gen := g |}
     = effect_disco now N {| state_obj := s; random_gen := g' |}).
Proof.
  rewrite !effect_disco_cases. split.
  - destruct (Qeq_bool _ _); [done|]. by destruct (Qltb _ _).
  - intros Hne Hge. rewrite (Qeq_bool_ne _ _ Hne).
    destruct (Qltb _ _) eqn:E; [|done]. by apply Qltb_lt in E.
Qed.

(** X9: Every lit entry of a buffer [effect_disco] returns is the conversion of
    a hue in [[0, 1)] at value [max_brightness]; with
    [max_brightness >= 0] its channels lie in [[0, max_brightness]]. *)
Theorem effect_disco_lit_entries
    {G : Type} `{RandomSource G} (s : EffectState) (g : G) (now : Q)
    (N : Z) (buffer : list (option RGB)) (st' : DiscoStore G) :
  effect_disco now N {| state_obj := s; random_gen := g |}
  = (Ok (buffer, true), st') →
  ∀ rgb, Some rgb ∈ buffer →
    (∃ hue, (0 <= hue ∧ hue < 1) ∧ rgb = hue_color hue (max_brightness s))
    ∧ (0 <= max_brightness s → channels_within (max_brightness s) rgb).
Proof.
  rewrite effect_disco_cases.
  destruct (Qeq_bool _ _); [done|]. destruct (Qltb _ _); [done|].
  unfold fired.
  rewrite St_bind_eq. cbn [random_seed modify with_gen state_obj random_gen].
  do 2 (rewrite St_bind_eq; cbn [attr gets state_obj]).
  rewrite St_bind_eq. unfold random_randint.
  destruct (_ <? _)%Z; [done|].
  unfold draw at 1. cbn [random_gen]. destruct (rs_randint _ _ _) as [k g1].
  rewrite St_bind_eq. unfold random_shuffle, draw at 1.
  cbn [random_gen with_gen state_obj].
  destruct (rs_shuffle _ _) as [all_indices g2].
  rewrite St_bind_eq.
  match goal with |- context [mapM ?f ?l ?st] =>
    destruct (disco_loop_colours
                (list_to_set (py_slice_to all_indices k)) l st)
      as (colors & st1 & Hloop & Hst & Hall)
  end.
  rewrite Hloop. cbn [mret St_ret]. intros [= <- <-] rgb Hin.
  rewrite Forall_forall in Hall.
  destruct (Hall _ Hin rgb eq_refl) as (hue & Hhue & ->).
  cbn [state_obj with_gen]. split; [by exists hue|]. intros Hc.
  pose proof (hue_x_range (hue * 6) _ Hc) as [Hx0 Hxc].
  unfold hue_color, channels_within. cbv zeta.
  set (x := max_brightness s * (1 - Qabs (Qmod (hue * 6) 2 - 1))) in *.
  repeat match goal with
  | |- context [if Qltb ?a ?b then _ else _] => destruct (Qltb a b)
  end; cbn [fst snd]; repeat split; lra.
Qed.

Import LcgSource.

Lemma effect_disco_idle_call_touches_nothing_witness :
  effect_disco 0.5 10 {| state_obj := EffectState_default; random_gen := 7%Z |}
  = (Ok ([], false),
     {| state_obj := EffectState_default; random_gen := 7%Z |}).
Proof.
  apply (effect_disco_idle_call_touches_nothing EffectState_default 7%Z 0.5 10);
    by vm_compute.
Defined.

Lemma effect_disco_ignores_generator_state_witness :
  effect_disco 5 10 {| state_obj := EffectState_default; random_gen := 0%Z |}
  = effect_disco 5 10 {| state_obj := EffectState_default; random_gen := 7%Z |}.
Proof.
  apply (effect_disco_ignores_generator_state EffectState_default 0%Z 7%Z 5 10);
    by vm_compute.
Defined.

Lemma effect_disco_lit_entries_witness :
  ∃ buffer st',
    effect_disco 5 10 {| state_obj := EffectState_default; random_gen := 0%Z |}
    = (Ok (buffer, true), st')
    ∧ ∀ rgb, Some rgb ∈ buffer →
        (∃ hue, (0 <= hue ∧ hue < 1) ∧ rgb = hue_color hue 1)
        ∧ (0 <= 1 → channels_within 1 rgb).
Proof.
  eexists _, _. split; [vm_compute; reflexivity|].
  eapply (effect_disco_lit_entries EffectState_default 0%Z 5 10).
  vm_compute. reflexivity.
Defined.

End DiscoColours.

(** ** Gradient fill, thermal and progress *)

Module FillMore.
Import Effects MoreSpec.
#[local] Open Scope Q_scope.

(** A loop in the [res] monad whose every step returns. *)
Lemma mapM_res {A B} (f : A → res B) (P : A → B → Prop) (l : list A) :
  (∀ x, x ∈ l → ∃ y, f x = Ok y ∧ P x y) →
  ∃ ys, mapM f l = Ok ys ∧ Forall2 P l ys.
Proof.
  induction l as [|x l IH]; intros Hf.
  { exists []. by split. }
  destruct (Hf x) as (y & Hy & HP); [by left|].
  destruct IH as (ys & Hys & HPs); [intros; apply Hf; by right|].
  exists (y :: ys). split; [|by constructor].
  change (mapM f (x :: l)) with (y ← f x; k ← mapM f l; mret (y :: k)).
  by rewrite Hy, Hys.
Qed.

Lemma inject_Z_index (i : Z) : inject_Z (i + 1 - 1) == inject_Z i.
Proof. by replace (i + 1 - 1)%Z with i by lia. Qed.

Lemma inject_Z_succ (i : Z) : inject_Z (i + 1) == inject_Z i + 1.
Proof. by rewrite inject_Z_plus. Qed.

Lemma clamp_high (fill_percent : Q) :
  1 <= fill_percent → py_max 0 (py_min 1 fill_percent) = 1.
Proof.
  intros H. unfold py_max, py_min.
  by rewrite (proj2 (Qltb_ge fill_percent 1) H).
Qed.

Lemma clamp_low (fill_percent : Q) :
  fill_percent <= 0 → py_max 0 (py_min 1 fill_percent) = 0.
Proof.
  intros H. unfold py_max, py_min.
  rewrite (proj2 (Qltb_lt fill_percent 1)) by lra.
  by rewrite (proj2 (Qltb_ge 0 fill_percent) H).
Qed.

Lemma gradient_t_unit (led_count i : Z) :
  (0 ≤ i < led_count)%Z →
  0 <= gradient_t led_count i ∧ gradient_t led_count i <= 1
  ∧ (i = 0%Z → (1 < led_count)%Z → gradient_t led_count i == 0)
  ∧ (i = (led_count - 1)%Z → gradient_t led_count i == 1).
Proof.
  intros [Hi0 HiN]. unfold gradient_t.
  destruct (Z.leb_spec led_count 1) as [Hle|Hgt].
  { repeat split; try lra. intros -> ?. lia. }
  assert (0 < inject_Z (led_count - 1)) as Hpos.
  { change 0 with (inject_Z 0). rewrite <- Zlt_Qlt. lia. }
  assert (0 <= inject_Z i) as Hq0.
  { change 0 with (inject_Z 0). rewrite <- Zle_Qle. lia. }
  assert (inject_Z i <= inject_Z (led_count - 1)) as Hq1.
  { rewrite <- Zle_Qle. lia. }
  repeat split.
  - apply Qle_shift_div_l; [done | lra].
  - apply Qle_shift_div_r; [done | lra].
  - intros -> _. change (inject_Z 0) with 0. field. lra.
  - intros ->. field. lra.
Qed.

Section WithPow.
Variable pow : Q → Q → res Q.

(** An LED is lit, fully or partly, exactly when its index is below the
    fractional count. *)
Lemma fill_led_lit (s : EffectState) (lit_count : Q) (led_count i : Z) :
  returns_on_unit pow (gradient_curve s) →
  (0 ≤ i < led_count)%Z →
  ∃ o, fill_led pow s lit_count led_count i = Ok o
       ∧ (is_Some o ↔ inject_Z i < lit_count).
Proof.
  intros Hpow Hi. unfold fill_led, gradient_color. cbv zeta.
  destruct (gradient_t_unit led_count i Hi) as (Ht0 & Ht1 & _).
  destruct (Hpow _ Ht0 Ht1) as [r Hr]. unfold gradient_t in Hr. rewrite Hr.
  pose proof (inject_Z_index i) as Ei. pose proof (inject_Z_succ i) as Es.
  cbn [mbind res_bind].
  destruct (Qle_bool _ _) eqn:E1.
  - apply Qle_bool_iff in E1. eexists. split; [done|].
    split; [intros _; lra | by eexists].
  - assert (¬ inject_Z (i + 1) <= lit_count) as N1.
    { intros Hle. apply Qle_bool_iff in Hle. congruence. }
    destruct (Qltb _ _) eqn:E2.
    + apply Qltb_lt in E2.
      destruct (_lerp_color _ _ _) as [[r0 g0] b0]. eexists.
      split; [done|]. split; [intros _; lra | by eexists].
    + apply Qltb_ge in E2. exists None. split; [done|].
      split; [by intros [? ?] | intros Hlt; lra].
Qed.

Lemma fill_loop (s : EffectState) (lit_count : Q) (led_count : Z) :
  returns_on_unit pow (gradient_curve s) →
  ∃ colors,
    mapM (fill_led pow s lit_count led_count) (py_range led_count) = Ok colors
    ∧ length colors = Z.to_nat led_count
    ∧ ∀ (i : nat) o, colors !! i = Some o →
        (is_Some o ↔ inject_Z (Z.of_nat i) < lit_count).
Proof.
  intros Hpow.
  destruct (mapM_res (fill_led pow s lit_count led_count)
              (λ i o, is_Some o ↔ inject_Z i < lit_count)
              (py_range led_count)) as (colors & Hcolors & Hall).
  { intros i Hi. apply elem_of_seqZ in Hi. apply fill_led_lit; [done | lia]. }
  exists colors. split; [done|]. split.
  { rewrite <- (Forall2_length _ _ _ Hall). apply length_seqZ. }
  intros i o Hi.
  destruct (Forall2_lookup_r _ _ _ _ _ Hall Hi) as (z & Hz & HP).
  apply lookup_seqZ in Hz as [-> _]. by rewrite Z.add_0_l in HP.
Qed.

(** X10: In the standard direction [effect_fill] returns [led_count] entries,
    and the lit ones are a prefix: entry [i] is lit exactly when
    [i < fill * led_count], for the fill fraction clamped to [[0, 1]]. *)
Theorem effect_fill_lit_prefix (s : EffectState) (fill_percent : Q)
    (led_count : Z) :
  returns_on_unit pow (gradient_curve s) →
  direction s ≠ "reverse" →
  ∃ buffer,
    effect_fill pow s fill_percent led_count = Ok buffer
    ∧ length buffer = Z.to_nat led_count
    ∧ ∀ (i : nat) o, buffer !! i = Some o →
        (is_Some o
         ↔ inject_Z (Z.of_nat i)
           < py_max 0 (py_min 1 fill_percent) * inject_Z led_count).
Proof.
  intros Hpow Hdir. unfold effect_fill. cbv zeta.
  destruct (fill_loop s
              (py_max 0 (py_min 1 fill_percent) * inject_Z led_count)
              led_count Hpow) as (colors & -> & Hlen & Hlit).
  cbn [mbind res_bind].
  rewrite (proj2 (String.eqb_neq _ _) Hdir).
  by exists colors.
Qed.

(** X11: A progress bar never goes back: an LED lit at one progress value is
    lit at every higher one (standard direction). *)
Theorem effect_progress_monotone (s : EffectState) (progress1 progress2 : Q)
    (led_count : Z) (buffer1 buffer2 : list (option RGB)) (i : nat) :
  returns_on_unit pow (gradient_curve s) →
  direction s ≠ "reverse" →
  progress1 <= progress2 →
  effect_progress pow s progress1 led_count = Ok buffer1 →
  effect_progress pow s progress2 led_count = Ok buffer2 →
  lit_at buffer1 i → lit_at buffer2 i.
Proof.
  intros Hpow Hdir Hle. unfold effect_progress, effect_fill. cbv zeta.
  destruct (fill_loop s
              (py_max 0 (py_min 1 progress1) * inject_Z led_count)
              led_count Hpow) as (b1 & -> & Hlen1 & Hlit1).
  destruct (fill_loop s
              (py_max 0 (py_min 1 progress2) * inject_Z led_count)
              led_count Hpow) as (b2 & -> & Hlen2 & Hlit2).
  cbn [mbind res_bind]. rewrite (proj2 (String.eqb_neq _ _) Hdir).
  intros [= <-] [= <-] [c E1].
  assert (i < length b2)%nat as Hi.
  { rewrite Hlen2, <- Hlen1. by apply lookup_lt_Some in E1. }
  apply lookup_lt_is_Some in Hi as [o2 E2].
  cut (is_Some o2). { intros [c2 ->]. by exists c2. }
  apply (Hlit2 i o2 E2).
  assert (inject_Z (Z.of_nat i)
          < py_max 0 (py_min 1 progress1) * inject_Z led_count) as Hlt.
  { apply (Hlit1 i (Some c) E1). by eexists. }
  assert (py_max 0 (py_min 1 progress1) <= py_max 0 (py_min 1 progress2))
    as Hclamp.
  { unfold py_max, py_min.
    destruct (Qltb progress1 1) eqn:Ea;
      [apply Qltb_lt in Ea | apply Qltb_ge in Ea];
      (destruct (Qltb progress2 1) eqn:Eb;
        [apply Qltb_lt in Eb | apply Qltb_ge in Eb]);
      repeat match goal with
      | |- context [Qltb ?a ?b] =>
          let E := fresh "E" in
          destruct (Qltb a b) eqn:E;
          [apply Qltb_lt in E | apply Qltb_ge in E]
      end; lra. }
  assert (0 <= inject_Z led_count) as HN.
  { change 0 with (inject_Z 0). rewrite <- Zle_Qle.
    apply lookup_lt_Some in E1. lia. }
  nra.
Qed.

(** With no LED to light the loop appends [None] every time, without
    calling [pow]. *)
Lemma fill_loop_dark (s : EffectState) (led_count : Z) :
  mapM (fill_led pow s (0 * inject_Z led_count) led_count)
    (py_range led_count)
  = Ok (replicate (Z.to_nat led_count) None).
Proof.
  destruct (mapM_res (fill_led pow s (0 * inject_Z led_count) led_count)
              (λ _ o, o = None) (py_range led_count))
    as (colors & -> & Hall).
  { intros i Hi. apply elem_of_seqZ in Hi as [Hi0 _].
    exists None. split; [|done]. unfold fill_led. cbv zeta.
    assert (0 <= inject_Z i) as Hq by (by rewrite Zle_Qle in Hi0).
    pose proof (inject_Z_index i) as Ei. pose proof (inject_Z_succ i) as Es.
    destruct (Qle_bool _ _) eqn:E1; [apply Qle_bool_iff in E1; lra|].
    destruct (Qltb _ _) eqn:E2; [apply Qltb_lt in E2; lra|]. done. }
  f_equal. symmetry. apply replicate_as_Forall. split.
  - rewrite <- (Forall2_length _ _ _ Hall). apply length_seqZ.
  - eapply Forall2_Forall_r; [exact Hall|]. by apply Forall_true.
Qed.

Lemma rev_replicate {A} (n : nat) (x : A) :
  rev (replicate n x) = replicate n x.
Proof. rewrite rev_alt. apply (reverse_replicate n x). Qed.

(** X12: A fill of zero or less leaves every LED unlit, whatever the strip
    length and the direction; [pow] is not called. *)
Theorem effect_fill_empty (s : EffectState) (fill_percent : Q)
    (led_count : Z) :
  fill_percent <= 0 →
  effect_fill pow s fill_percent led_count
  = Ok (replicate (Z.to_nat led_count) None).
Proof.
  intros Hfp. unfold effect_fill. cbv zeta. rewrite (clamp_low _ Hfp).
  rewrite fill_loop_dark. cbn [mbind res_bind].
  destruct (String.eqb _ _); [|done]. by rewrite rev_replicate.
Qed.

(** X13: A full strip (fill of one or more, standard direction) lights every
    LED with a colour on the segment from [start_color] to [end_color]; the
    last LED shows [end_color] and, on a strip of two or more, the first
    shows [start_color].  A strip of one LED shows [end_color]. *)
Theorem effect_fill_full_gradient (s : EffectState) (fill_percent : Q)
    (led_count : Z) :
  1 <= fill_percent →
  (0 < led_count)%Z →
  direction s ≠ "reverse" →
  curve_on_unit pow (gradient_curve s) →
  ∃ buffer,
    effect_fill pow s fill_percent led_count = Ok buffer
    ∧ (∀ o, o ∈ buffer →
         ∃ c, o = Some c ∧ on_segment c (start_color s) (end_color s))
    ∧ (∃ c, last buffer = Some (Some c) ∧ same_color c (end_color s))
    ∧ ((1 < led_count)%Z →
       ∃ c, head buffer = Some (Some c) ∧ same_color c (start_color s)).
Proof.
  intros Hfp HN Hdir Hpow. unfold effect_fill. cbv zeta.
  rewrite (clamp_high _ Hfp).
  set (P := λ (i : Z) (o : option RGB),
         ∃ c, o = Some c
           ∧ on_segment c (start_color s) (end_color s)
           ∧ (i = (led_count - 1)%Z → same_color c (end_color s))
           ∧ (i = 0%Z → (1 < led_count)%Z → same_color c (start_color s))).
  destruct (mapM_res (fill_led pow s (1 * inject_Z led_count) led_count) P
              (py_range led_count)) as (colors & -> & Hall).
  { intros i Hi. apply elem_of_seqZ in Hi.
    assert (0 ≤ i < led_count)%Z as Hi' by lia.
    destruct (gradient_t_unit led_count i Hi') as (Ht0 & Ht1 & Hz & Ho).
    destruct (Hpow _ Ht0 Ht1) as (r & Hr & Hr0 & Hr1 & Hrz & Hro).
    unfold fill_led, gradient_color. cbv zeta.
    unfold gradient_t in Hr. rewrite Hr. cbn [mbind res_bind].
    assert (inject_Z (i + 1) <= 1 * inject_Z led_count) as Hle.
    { rewrite Qmult_1_l, <- Zle_Qle. lia. }
    apply Qle_bool_iff in Hle. rewrite Hle.
    eexists. split; [done|]. eexists. split; [done|].
    pose proof (LerpFacts.lerp_channel_between) as Hb.
    destruct (start_color s) as [[r1 g1] b1] eqn:Es.
    destruct (end_color s) as [[r2 g2] b2] eqn:Ee.
    unfold on_segment, same_color. cbn [_lerp_color fst snd].
    split; [repeat split; by apply Hb|]. split.
    - intros Hlast. specialize (Hro (Ho Hlast)).
      rewrite Hro. repeat split; ring.
    - intros Hfirst Hlong. specialize (Hrz (Hz Hfirst Hlong)).
      rewrite Hrz. repeat split; ring. }
  cbn [mbind res_bind].
  rewrite (proj2 (String.eqb_neq _ _) Hdir).
  assert (length colors = Z.to_nat led_count) as Hlen.
  { rewrite <- (Forall2_length _ _ _ Hall). apply length_seqZ. }
  exists colors. split; [done|]. split; [|split].
  - intros o Ho. apply list_elem_of_lookup in Ho as [n Hn].
    destruct (Forall2_lookup_r _ _ _ _ _ Hall Hn) as (z & _ & c & -> & Hc & _).
    by exists c.
  - assert (is_Some (colors !! pred (length colors))) as [o Ho].
    { apply lookup_lt_is_Some. lia. }
    destruct (Forall2_lookup_r _ _ _ _ _ Hall Ho) as (z & Hz & c & -> & _ & Hc & _).
    apply lookup_seqZ in Hz as [-> _].
    exists c. rewrite last_lookup. split; [done|]. apply Hc. lia.
  - intros Hlong.
    assert (is_Some (colors !! 0%nat)) as [o Ho].
    { apply lookup_lt_is_Some. lia. }
    destruct (Forall2_lookup_r _ _ _ _ _ Hall Ho) as (z & Hz & c & -> & _ & _ & Hc).
    apply lookup_seqZ in Hz as [-> _].
    exists c. rewrite head_lookup. split; [done|]. by apply Hc.
Qed.

(** X14: The division of [effect_thermal] is guarded: with a [pow] that returns
    on [[0, 1]] the effect returns a buffer of [led_count] entries for every
    combination of temperatures and in either direction. *)
Theorem effect_thermal_returns (s : EffectState)
    (current_temp target_temp temp_floor : Q) (led_count : Z) :
  returns_on_unit pow (gradient_curve s) →
  ∃ buffer,
    effect_thermal pow s current_temp target_temp temp_floor led_count
    = Ok buffer
    ∧ length buffer = Z.to_nat led_count.
Proof.
  intros Hpow. unfold effect_thermal.
  destruct (Qle_bool target_temp 0);
    [eexists; split; [done | apply length_replicate]|].
  destruct (Qle_bool target_temp temp_floor) eqn:E;
    [eexists; split; [done | apply length_replicate]|].
  assert (¬ target_temp <= temp_floor) as Hgt.
  { intros H. apply Qle_bool_iff in H. congruence. }
  cbv zeta. unfold py_div.
  rewrite CycleFacts.Qeq_bool_ne by (intros E0; apply Hgt; lra).
  cbn [mbind res_bind]. unfold effect_fill. cbv zeta.
  match goal with |- context [fill_led pow s ?lc] =>
    destruct (fill_loop s lc led_count Hpow) as (colors & -> & Hlen & _)
  end.
  cbn [mbind res_bind].
  destruct (String.eqb _ _); eexists; (split; [done|]);
    [by rewrite length_rev | done].
Qed.

(** X15: The ends of the thermal scale.  Without a usable target (zero or
    less, or not above the floor) every LED shows [start_color], whatever
    the current temperature.  With one: at or below the floor every LED is
    dark, and at or above the target the buffer is that of a complete
    progress bar. *)
Theorem effect_thermal_extremes (s : EffectState)
    (current_temp target_temp temp_floor : Q) (led_count : Z) :
  (target_temp <= 0 ∨ target_temp <= temp_floor →
   effect_thermal pow s current_temp target_temp temp_floor led_count
   = Ok (replicate (Z.to_nat led_count) (Some (start_color s))))
  ∧ (0 < target_temp → temp_floor < target_temp →
     (current_temp <= temp_floor →
      effect_thermal pow s current_temp target_temp temp_floor led_count
      = Ok (replicate (Z.to_nat led_count) None))
     ∧ (target_temp <= current_temp →
        effect_thermal pow s current_temp target_temp temp_floor led_count
        = effect_progress pow s 1 led_count)).
Proof.
  unfold effect_thermal. split.
  - intros [H|H].
    + apply Qle_bool_iff in H. by rewrite H.
    + apply Qle_bool_iff in H. rewrite H. by destruct (Qle_bool target_temp 0).
  - intros Ht Hf.
    assert (Qle_bool target_temp 0 = false) as ->.
    { apply not_true_is_false. intros H. apply Qle_bool_iff in H. lra. }
    assert (Qle_bool target_temp temp_floor = false) as ->.
    { apply not_true_is_false. intros H. apply Qle_bool_iff in H. lra. }
    cbv zeta. unfold py_div.
    rewrite CycleFacts.Qeq_bool_ne by lra. cbn [mbind res_bind].
    split; intros Hc.
    + unfold effect_fill. cbv zeta.
      rewrite clamp_low by (apply Qle_shift_div_r; lra).
      rewrite fill_loop_dark. cbn [mbind res_bind].
      destruct (String.eqb _ _); [|done]. by rewrite rev_replicate.
    + unfold effect_progress, effect_fill. cbv zeta.
      rewrite clamp_high; [done|]. apply Qle_shift_div_l; lra.
Qed.

End WithPow.

Lemma linear_pow_curve (c : Q) : curve_on_unit linear_pow c.
Proof. intros t H0 H1. exists t. by repeat split. Qed.

Lemma linear_pow_returns (c : Q) : returns_on_unit linear_pow c.
Proof. intros t _ _. by exists t. Qed.

Lemma effect_fill_lit_prefix_witness :
  ∃ buffer,
    effect_fill linear_pow EffectState_default 0.55 10 = Ok buffer
    ∧ length buffer = 10%nat
    ∧ ∀ (i : nat) o, buffer !! i = Some o →
        (is_Some o ↔ inject_Z (Z.of_nat i) < 0.55 * 10).
Proof.
  apply (effect_fill_lit_prefix linear_pow EffectState_default 0.55 10).
  - apply linear_pow_returns.
  - discriminate.
Defined.

Lemma effect_progress_monotone_witness :
  ∃ buffer2,
    effect_progress linear_pow EffectState_default 0.55 10 = Ok buffer2
    ∧ lit_at buffer2 2.
Proof.
  eexists. split; [vm_compute; reflexivity|].
  eapply (effect_progress_monotone linear_pow EffectState_default 0.25 0.55
            10 _ _ 2).
  - apply linear_pow_returns.
  - discriminate.
  - by vm_compute.
  - vm_compute. reflexivity.
  - vm_compute. reflexivity.
  - eexists. vm_compute. reflexivity.
Defined.

Lemma effect_fill_empty_witness :
  effect_fill linear_pow EffectState_default (-0.5) 4
  = Ok [None; None; None; None].
Proof.
  apply (effect_fill_empty linear_pow EffectState_default (-0.5) 4).
  by vm_compute.
Defined.

Lemma effect_fill_full_gradient_witness :
  ∃ buffer,
    effect_fill linear_pow EffectState_default 1.5 10 = Ok buffer
    ∧ (∀ o, o ∈ buffer →
         ∃ c, o = Some c ∧ on_segment c (0.5, 0.5, 0.5) (0, 1, 0))
    ∧ (∃ c, last buffer = Some (Some c) ∧ same_color c (0, 1, 0))
    ∧ ((1 < 10)%Z →
       ∃ c, head buffer = Some (Some c) ∧ same_color c (0.5, 0.5, 0.5)).
Proof.
  apply (effect_fill_full_gradient linear_pow EffectState_default 1.5 10).
  - by vm_compute.
  - lia.
  - discriminate.
  - apply linear_pow_curve.
Defined.

Lemma effect_thermal_returns_witness :
  ∃ buffer,
    effect_thermal linear_pow EffectState_default 120 210 25 10 = Ok buffer
    ∧ length buffer = 10%nat.
Proof.
  apply (effect_thermal_returns linear_pow EffectState_default 120 210 25 10).
  apply linear_pow_returns.
Defined.

Lemma effect_thermal_extremes_witness :
  effect_thermal linear_pow EffectState_default 180 0 25 3
  = Ok [Some (0.5, 0.5, 0.5); Some (0.5, 0.5, 0.5); Some (0.5, 0.5, 0.5)]
  ∧ effect_thermal linear_pow EffectState_default 20 210 25 3
    = Ok [None; None; None]
  ∧ effect_thermal linear_pow EffectState_default 215 210 25 3
    = effect_progress linear_pow EffectState_default 1 3.
Proof.
  split; [|split].
  - apply (effect_thermal_extremes linear_pow EffectState_default 180 0 25 3).
    left. by vm_compute.
  - apply (effect_thermal_extremes linear_pow EffectState_default 20 210 25 3);
      by vm_compute.
  - apply (effect_thermal_extremes linear_pow EffectState_default 215 210 25 3);
      by vm_compute.
Defined.

End FillMore.

(** ** PrinterState predicates and the decision tree *)

Module DetectorMore.
Import State DetectorSpec DetectorMoreSpec DetectorFacts.
#[local] Open Scope Q_scope.

Lemma Qle_bool_false (a b : Q) : Qle_bool a b = false ↔ b < a.
Proof.
  split.
  - intros E. apply Qnot_le_lt. intros H. apply Qle_bool_iff in H. congruence.
  - intros H. apply not_true_is_false. intros E. apply Qle_bool_iff in E. lra.
Qed.

Lemma Qeq_bool_false (a b : Q) : Qeq_bool a b = false ↔ ¬ a == b.
Proof.
  split.
  - intros E H. apply Qeq_bool_iff in H. congruence.
  - apply CycleFacts.Qeq_bool_ne.
Qed.

(** What [clearly_heating] has found when it answers [True]. *)
Lemma clearly_heating_inv (state : PrinterState) (threshold : Q) :
  clearly_heating state threshold = true →
  (0 < bed_target state ∧ threshold < bed_target state - bed_temp state)
  ∨ (0 < extruder_target state
     ∧ threshold < extruder_target state - extruder_temp state).
Proof.
  unfold clearly_heating.
  destruct (Qltb 0 (bed_target state) && _) eqn:Ebed.
  { apply andb_true_iff in Ebed as [Ht Hd]. apply Qltb_lt in Ht, Hd.
    by left. }
  destruct (Qltb 0 (extruder_target state) && _) eqn:Eext; [|discriminate].
  apply andb_true_iff in Eext as [Ht Hd]. apply Qltb_lt in Ht, Hd.
  by right.
Qed.

(** A heater short of its target by more than the tolerance fails the
    test of [at_temp]. *)
Lemma off_target (target temp tolerance : Q) :
  0 < target → tolerance < target - temp →
  Qeq_bool target 0 || Qle_bool (Qabs (temp - target)) tolerance = false.
Proof.
  intros Ht Hd. rewrite (proj2 (Qeq_bool_false _ _)) by lra.
  rewrite (proj2 (Qle_bool_false _ _)); [done|].
  pose proof (Qle_Qabs (- (temp - target))) as Habs.
  rewrite Qabs_opp in Habs. lra.
Qed.

(** The band of the hysteresis, with the constants of the decision tree. *)
Lemma heating_band (state : PrinterState) :
  clearly_heating state 10 = true →
  is_heating state && negb (at_temp state 2) = true.
Proof.
  intros H. unfold is_heating, at_temp. cbv zeta.
  destruct (clearly_heating_inv _ _ H) as [[Ht Hd] | [Ht Hd]].
  - rewrite (proj2 (Qltb_lt _ _) Ht), off_target by lra. done.
  - rewrite (proj2 (Qltb_lt _ _) Ht), (off_target (extruder_target state))
      by lra.
    by rewrite orb_true_r, andb_false_r.
Qed.

(** X16: The two temperature bands are nested: a heater more than [threshold]
    below its target is heating and is not within any tolerance up to
    [threshold] of it. *)
Theorem clearly_heating_excludes_at_temp (state : PrinterState)
    (threshold tolerance : Q) :
  tolerance <= threshold →
  clearly_heating state threshold = true →
  is_heating state = true ∧ at_temp state tolerance = false.
Proof.
  intros Hle H. unfold is_heating, at_temp. cbv zeta.
  destruct (clearly_heating_inv _ _ H) as [[Ht Hd] | [Ht Hd]].
  - rewrite (proj2 (Qltb_lt _ _) Ht), off_target by lra. done.
  - rewrite (proj2 (Qltb_lt _ _) Ht), (off_target (extruder_target state))
      by lra.
    by rewrite orb_true_r, andb_false_r.
Qed.

Lemma clearly_heating_excludes_at_temp_witness :
  let state : PrinterState :=
    Build_PrinterStateOf "ready" "printing" 0 "part.gcode" 60 60 150 210
      0 0 0 "Printing" in
  is_heating state = true ∧ at_temp state 2 = false.
Proof.
  cbv zeta.
  apply (clearly_heating_excludes_at_temp
           (Build_PrinterStateOf "ready" "printing" 0 "part.gcode" 60 60
              150 210 0 0 0 "Printing") 10 2);
    by vm_compute.
Defined.

Section Detector.
Context {W : Type}.
Implicit Types (d : StateDetector W) (w : W) (state : PrinterState).

(** X17: While a print runs the decision tree has three bands.  A heater more
    than 10 degrees short of its target gives [HEATING]; heaters within 2
    degrees of their targets (or no target) give [PRINTING]; in between the
    answer follows the current event: [PRINTING] stays [PRINTING], anything
    else is [HEATING].  The detector is not assigned. *)
Theorem detect_event_printing_hysteresis state now d :
  klipper_state state ≠ "shutdown" →
  klipper_state state ≠ "error" →
  print_state state = "printing" →
  _detect_event state now d
  = (Ok (if clearly_heating state 10 then HEATING
         else if is_heating state && negb (at_temp state 2) then
           if decide (_current_event d = PRINTING) then PRINTING else HEATING
         else PRINTING), d).
Proof.
  intros Hs He Hp. unfold _detect_event.
  rewrite (proj2 (String.eqb_neq _ _) Hs), (proj2 (String.eqb_neq _ _) He).
  rewrite Hp. cbn [orb String.eqb Ascii.eqb Bool.eqb].
  rewrite St_bind_eq. cbn [gets].
  destruct (clearly_heating state 10) eqn:Ech.
  - rewrite (heating_band state Ech). by case_bool_decide.
  - destruct (is_heating state && negb (at_temp state 2));
      case_bool_decide; by try destruct (decide _).
Qed.

Lemma _transition_moved (e : PrinterEvent) (now : Q) d w :
  _transition e now (d, w)
  = ((notify e (_listeners d) w).1,
     (moved e now d, (notify e (_listeners d) w).2)).
Proof.
  unfold _transition, moved.
  destruct d as [a1 a2 a3 cur prev ls idle bored].
  destruct e;
    do 2 (rewrite St_bind_eq; run_on_self; cbv beta iota);
    by rewrite notify_all.
Qed.

(** The decision tree as a function of the state, the clock and the
    detector. *)
Lemma _detect_event_eq state now d :
  _detect_event state now d
  = (Ok (decision state now d).1, (decision state now d).2).
Proof.
  unfold _detect_event, decision, busy_event, idle_event.
  destruct (_ || _); [done|].
  destruct (String.eqb (print_state state) "printing").
  { rewrite St_bind_eq. cbn [gets].
    case_bool_decide; [by destruct (clearly_heating _ _)|].
    by destruct (_ && _). }
  destruct (is_heating state); [done|].
  destruct (is_hot state && negb false); [done|].
  rewrite St_bind_eq. cbn [gets].
  destruct (running (_idle_start d)) as [t0|]; [|done].
  do 2 (rewrite St_bind_eq; cbn [gets]).
  destruct (running (_bored_start d)) as [b|] eqn:Eb.
  - destruct (Qle_bool (sleep_timeout d) (now - b)); [done|].
    rewrite St_bind_eq. cbn [gets].
    destruct (Qle_bool _ _); [|done].
    rewrite St_bind_eq. cbn [gets]. rewrite Eb. by rewrite St_bind_eq.
  - rewrite St_bind_eq. cbn [gets].
    destruct (Qle_bool _ _); [|done].
    rewrite St_bind_eq. cbn [gets]. rewrite Eb. by rewrite St_bind_eq.
Qed.

(** The decision only ever assigns [_bored_start]. *)
Lemma decision_frame state now d :
  (decision state now d).2 = d
  ∨ ((decision state now d).1 = BORED
     ∧ running (_bored_start d) = None
     ∧ (decision state now d).2 = set_bored_start (Some now) d).
Proof.
  unfold decision, idle_event.
  destruct (busy_event _ _); [by left|].
  destruct (running (_idle_start d)); [|by left].
  destruct (running (_bored_start d)).
  - destruct (Qle_bool _ _); [by left|]. destruct (Qle_bool _ _); by left.
  - destruct (Qle_bool _ _); [by right | by left].
Qed.

Lemma decision_current state now d :
  _current_event (decision state now d).2 = _current_event d
  ∧ _listeners (decision state now d).2 = _listeners d.
Proof.
  destruct (decision_frame state now d) as [-> | (_ & _ & ->)]; [done|].
  by destruct d.
Qed.

Lemma update_eq state now d w :
  update state now (d, w)
  = if decide ((decision state now d).1 = _current_event d) then
      (Ok None, ((decision state now d).2, w))
    else
      (match (notify (decision state now d).1 (_listeners d) w).1 with
       | Ok _ => Ok (Some (decision state now d).1)
       | Raise b => Raise b
       end,
       (moved (decision state now d).1 now (decision state now d).2,
        (notify (decision state now d).1 (_listeners d) w).2)).
Proof.
  destruct (decision_current state now d) as [Hcur Hls]. unfold update.
  rewrite St_bind_eq. unfold on_self at 1. rewrite _detect_event_eq.
  rewrite St_bind_eq. unfold on_self at 1. cbn [gets]. rewrite Hcur.
  destruct (decide _) as [->|Hne].
  - by rewrite bool_decide_false by (by intros []).
  - rewrite bool_decide_true by done.
    rewrite St_bind_eq, _transition_moved, Hls.
    by destruct (notify _ _ _) as [[[]|b] w'].
Qed.

Lemma running_Some (t : option Q) (v : Q) :
  running t = Some v → t = Some v ∧ ¬ v == 0.
Proof.
  destruct t as [u|]; [|done]. unfold running.
  destruct (Qeq_bool u 0) eqn:E; [done|]. intros [= ->].
  split; [done|]. by apply Qeq_bool_false.
Qed.

Lemma running_set (v : Q) : ¬ v == 0 → running (Some v) = Some v.
Proof. intros H. unfold running. by rewrite (proj2 (Qeq_bool_false _ _) H). Qed.

(** [BORED] and [SLEEP] are only answered from running timers, the other
    events by the state alone or with both timers left alone. *)
Lemma decision_range state now d :
  match (decision state now d).1 with
  | BORED => is_Some (_idle_start d)
  | SLEEP => is_Some (_idle_start d) ∧ is_Some (_bored_start d)
  | _ => True
  end.
Proof.
  unfold decision, busy_event, idle_event.
  destruct (_ || _); [done|].
  destruct (String.eqb _ _).
  { case_bool_decide; [by destruct (clearly_heating _ _)|].
    by destruct (_ && _). }
  destruct (is_heating state); [done|].
  destruct (is_hot state && negb false); [done|].
  destruct (running (_idle_start d)) as [t0|] eqn:Ei; [|done].
  apply running_Some in Ei as [Ei _].
  destruct (running (_bored_start d)) as [b|] eqn:Eb.
  - apply running_Some in Eb as [Eb _].
    destruct (Qle_bool _ _); [cbn; rewrite Ei, Eb; eauto|].
    destruct (Qle_bool _ _); [cbn; rewrite Ei; eauto | done].
  - destruct (Qle_bool _ _); [cbn; rewrite Ei; eauto | done].
Qed.

(** X19: The timers agree with the current event when the detector is built,
    and every [update] keeps them so, whatever it detects and whether the
    listeners, which act on a world of their own and not on the detector,
    return, raise or are not reached. *)
Theorem update_keeps_timers_consistent state now d w
    (floor bored_after sleep_after t0 : Q) :
  timers_consistent (W:=W) (StateDetector_init floor bored_after sleep_after t0)
  ∧ (timers_consistent d →
     timers_consistent (update state now (d, w)).2.1).
Proof.
  split; [split; [by eexists | done]|].
  intros Hc. rewrite update_eq.
  pose proof (decision_frame state now d) as Hf.
  pose proof (decision_range state now d) as Hr.
  destruct (decision state now d) as [e d1]. cbn [fst snd] in *.
  assert (_idle_start d1 = _idle_start d) as Hidle.
  { destruct Hf as [-> | (_ & _ & ->)]; [done | by destruct d]. }
  destruct (decide (e = _current_event d)) as [->|Hne]; cbn [fst snd].
  - destruct Hf as [-> | (He & Hb & ->)]; [done|].
    unfold timers_consistent in *. destruct d. cbn in *. subst.
    destruct Hc as [Hi _]. by split.
  - unfold timers_consistent, moved. cbn. rewrite Hidle.
    destruct e; try done; try (by split).
    by destruct Hf as [-> | (? & _)].
Qed.

(** The state-dependent part of the tree is stable under its own answer. *)
Lemma busy_event_stable state (current e : PrinterEvent) :
  busy_event state current = Some e → busy_event state e = Some e.
Proof.
  unfold busy_event.
  destruct (_ || _); [by intros [= <-]|].
  destruct (String.eqb _ _).
  - destruct (clearly_heating state 10) eqn:Ech.
    + rewrite (heating_band state Ech).
      by case_bool_decide; intros [= <-].
    + case_bool_decide; [by intros [= <-]|].
      destruct (_ && _); by intros [= <-].
  - destruct (is_heating state); [by intros [= <-]|].
    by destruct (_ && _); intros [= <-].
Qed.

Lemma busy_event_quiet state (current current' : PrinterEvent) :
  busy_event state current = None → busy_event state current' = None.
Proof.
  unfold busy_event.
  destruct (_ || _); [done|].
  destruct (String.eqb _ _); [by case_bool_decide|done].
Qed.

(** Asking again at the same instant gives the same answer. *)
Lemma idle_event_fixpoint now d :
  0 < bored_timeout d → 0 < sleep_timeout d →
  idle_event now (idle_event now d).2 = idle_event now d
  ∧ idle_event now (moved (idle_event now d).1 now (idle_event now d).2)
    = ((idle_event now d).1,
       moved (idle_event now d).1 now (idle_event now d).2).
Proof.
  destruct d as [fl bt st cur prev ls idle bored]. cbn. intros Hb Hs.
  assert (Qle_bool st (now - now) = false) as Est
    by (apply Qle_bool_false; lra).
  assert (Qle_bool bt (now - now) = false) as Ebt
    by (apply Qle_bool_false; lra).
  assert (match running (Some now) with
          | Some b => Qle_bool st (now - b)
          | None => false
          end = false) as Hsleep.
  { unfold running. destruct (Qeq_bool now 0); by rewrite ?Est. }
  assert (match running (Some now) with
          | Some t0 => Qle_bool bt (now - t0)
          | None => false
          end = false) as Hbored.
  { unfold running. destruct (Qeq_bool now 0); by rewrite ?Ebt. }
  unfold idle_event, moved. cbn -[running].
  destruct (running idle) as [t0|] eqn:Ei.
  - destruct (running bored) as [b|] eqn:Eb.
    + destruct (Qle_bool st (now - b)) eqn:E1.
      { cbn -[running]. by rewrite Ei, Eb, E1. }
      destruct (Qle_bool bt (now - t0)) eqn:E2.
      * cbn -[running]. rewrite Ei, Eb, E1, E2. split; [done|].
        rewrite Hsleep. by destruct (running (Some now)).
      * cbn -[running]. rewrite Ei, Eb, E1, E2. split; [done|].
        destruct (running (Some now)); by rewrite ?Hbored in *.
    + destruct (Qle_bool bt (now - t0)) eqn:E2.
      * cbn -[running]. rewrite Ei, E2, Hsleep.
        by destruct (running (Some now)).
      * cbn -[running]. rewrite Ei, Eb, E2. split; [done|].
        destruct (running (Some now)); by rewrite ?Hbored in *.
  - cbn -[running]. rewrite Ei. split; [done|].
    destruct (running (Some now)); by rewrite ?Hbored in *.
Qed.

(** X20: With positive timeouts an [update] settles the detector for its
    instant: a second [update] with the same state and clock reports no
    change and leaves the detector as it is. *)
Theorem update_stable_at_fixed_instant state now d w w' :
  0 < bored_timeout d →
  0 < sleep_timeout d →
  update state now ((update state now (d, w)).2.1, w')
  = (Ok None, ((update state now (d, w)).2.1, w')).
Proof.
  intros Hb Hs.
  assert (∀ d', _current_event d' = (decision state now d').1 →
                (decision state now d').2 = d' →
                update state now (d', w') = (Ok None, (d', w'))) as Hfix.
  { intros d' Hcur Hd'. rewrite update_eq, Hd'. by rewrite decide_True. }
  rewrite (update_eq state now d w).
  destruct (decision_current state now d) as [Hcur _].
  destruct (idle_event_fixpoint now d Hb Hs) as [Hsame Hmoved].
  unfold decision in *.
  destruct (busy_event state (_current_event d)) as [e|] eqn:Ebusy.
  - cbn [fst snd] in *.
    destruct (decide (e = _current_event d)) as [->|Hne]; cbn [fst snd];
      apply Hfix; unfold decision.
    + by rewrite Ebusy.
    + by rewrite Ebusy.
    + cbn. by rewrite (busy_event_stable _ _ _ Ebusy).
    + cbn. by rewrite (busy_event_stable _ _ _ Ebusy).
  - destruct (decide _) as [He|Hne]; cbn [fst snd]; apply Hfix;
      unfold decision.
    + rewrite Hcur, Ebusy, Hsame. by rewrite He.
    + by rewrite Hcur, Ebusy, Hsame.
    + cbn [moved _current_event].
      rewrite (busy_event_quiet _ _ (idle_event now d).1 Ebusy).
      by rewrite Hmoved.
    + cbn [moved _current_event].
      rewrite (busy_event_quiet _ _ (idle_event now d).1 Ebusy).
      by rewrite Hmoved.
Qed.

(** X21: The idle timers of a quiet printer, for a detector whose current
    event is [IDLE], whose idle timer is running, whose bored timer is
    unset and whose listeners fail with an [Exception] if at all, at clock
    readings other than zero (a timer set to [0.0] counts as unset).
    Before [bored_timeout] has passed since the idle timer started nothing
    is reported; at or after it [BORED] is reported once; [SLEEP] is
    reported once [sleep_timeout] after the [BORED] report, and nothing
    after that. *)
Theorem idle_bored_sleep_lifecycle state d w (t0 now0 now1 now2 now3 : Q) :
  quiet state →
  Forall raises_only_exceptions (_listeners d) →
  _current_event d = IDLE →
  _idle_start d = Some t0 →
  _bored_start d = None →
  ¬ t0 == 0 →
  ¬ now1 == 0 →
  bored_timeout d <= now1 - t0 →
  now1 <= now2 →
  now2 <= now3 →
  (now0 - t0 < bored_timeout d →
   update state now0 (d, w) = (Ok None, (d, w)))
  ∧ ∃ d1,
      update state now1 (d, w)
      = (Ok (Some BORED), (d1, notified BORED (_listeners d) w))
      ∧ (now2 - now1 < sleep_timeout d →
         ∀ w1, update state now2 (d1, w1) = (Ok None, (d1, w1)))
      ∧ (sleep_timeout d <= now2 - now1 →
         ∃ d2, ∀ w1,
           update state now2 (d1, w1)
           = (Ok (Some SLEEP), (d2, notified SLEEP (_listeners d) w1))
           ∧ ∀ w2, update state now3 (d2, w2) = (Ok None, (d2, w2))).
Proof.
  intros (Hs & He & Hp & Hh & Hhot) Hall Hcur Hidle Hbored Ht0 Hnow1 Hb
    H12 H23.
  assert (∀ current, busy_event state current = None) as Hquiet.
  { intros current. unfold busy_event.
    rewrite (proj2 (String.eqb_neq _ _) Hs), (proj2 (String.eqb_neq _ _) He).
    by rewrite (proj2 (String.eqb_neq _ _) Hp), Hh, Hhot. }
  destruct d as [fl bt st cur prev ls idle bored]. cbn in *. subst.
  pose proof (running_set t0 Ht0) as Ei.
  pose proof (running_set now1 Hnow1) as Eb.
  split.
  { intros Hlt. rewrite update_eq. unfold decision. rewrite Hquiet.
    unfold idle_event. cbn -[running]. rewrite Ei. cbn -[running].
    by rewrite (proj2 (Qle_bool_false _ _) Hlt). }
  eexists. split.
  { rewrite update_eq. unfold decision. rewrite Hquiet.
    unfold idle_event. cbn -[running]. rewrite Ei. cbn -[running].
    rewrite (proj2 (Qle_bool_iff _ _) Hb). cbn -[notify].
    rewrite (notify_caught BORED ls w Hall). reflexivity. }
  unfold moved. cbn -[running]. split.
  - intros Hlt w1. rewrite update_eq. unfold decision. rewrite Hquiet.
    unfold idle_event. cbn -[running]. rewrite Ei, Eb.
    rewrite (proj2 (Qle_bool_false _ _) Hlt).
    rewrite (proj2 (Qle_bool_iff bt (now2 - t0))) by lra. by cbn.
  - intros Hge. eexists. intros w1. split.
    + rewrite update_eq. unfold decision. rewrite Hquiet.
      unfold idle_event. cbn -[running]. rewrite Ei, Eb.
      rewrite (proj2 (Qle_bool_iff _ _) Hge). cbn -[notify].
      rewrite (notify_caught SLEEP ls w1 Hall). reflexivity.
    + intros w2. unfold moved. cbn -[running].
      rewrite update_eq. unfold decision. rewrite Hquiet.
      unfold idle_event. cbn -[running]. rewrite Ei, Eb.
      rewrite (proj2 (Qle_bool_iff st (now3 - now1))) by lra. by cbn.
Qed.

(** X22: After activity the idle clock starts at the first quiet [update]: that
    update sets the idle timer to its own instant and reports [IDLE]
    (always when the listeners fail with an [Exception] if at all;
    otherwise an exception outside [Exception] may pass through instead),
    and [BORED] cannot follow before [bored_timeout] has passed since
    then, however long the activity lasted. *)
Theorem activity_restarts_idle_clock state now now' d w :
  quiet state →
  timers_consistent d →
  _current_event d ∈ [HEATING; PRINTING; COOLDOWN; ERROR] →
  now' - now < bored_timeout d →
  ∃ d',
    (update state now (d, w)).2.1 = d'
    ∧ ((update state now (d, w)).1 = Ok (Some IDLE)
       ∨ ∃ b, is_exception b = false
              ∧ (update state now (d, w)).1 = Raise b)
    ∧ (Forall raises_only_exceptions (_listeners d) →
       update state now (d, w)
       = (Ok (Some IDLE), (d', notified IDLE (_listeners d) w)))
    ∧ _idle_start d' = Some now ∧ _bored_start d' = None
    ∧ _previous_event d' = _current_event d
    ∧ ∀ w', update state now' (d', w') = (Ok None, (d', w')).
Proof.
  intros (Hs & He & Hp & Hh & Hhot) Hc Hact Hlt.
  assert (∀ current, busy_event state current = None) as Hquiet.
  { intros current. unfold busy_event.
    rewrite (proj2 (String.eqb_neq _ _) Hs), (proj2 (String.eqb_neq _ _) He).
    by rewrite (proj2 (String.eqb_neq _ _) Hp), Hh, Hhot. }
  unfold timers_consistent in Hc.
  destruct d as [fl bt st cur prev ls idle bored]. cbn in *.
  assert (idle = None ∧ bored = None ∧ cur ≠ IDLE) as (-> & -> & Hcur).
  { repeat (apply elem_of_cons in Hact as [-> | Hact]);
      [by destruct Hc..|by apply elem_of_nil in Hact]. }
  assert (update state now
            (Build_StateDetector fl bt st cur prev ls None None, w)
          = (match (notify IDLE ls w).1 with
             | Ok _ => Ok (Some IDLE)
             | Raise b => Raise b
             end,
             (Build_StateDetector fl bt st IDLE cur ls (Some now) None,
              (notify IDLE ls w).2))) as ->.
  { rewrite update_eq. unfold decision. rewrite Hquiet. cbn -[notify].
    by rewrite decide_False by done. }
  eexists. split; [reflexivity|]. cbn -[running notify].
  split.
  { destruct (notify_outcome IDLE ls w) as [-> | (b & Hesc & ->)];
      [by left | right; by exists b]. }
  split.
  { intros Hall. by rewrite (notify_caught IDLE ls w Hall). }
  repeat split; try done.
  intros w'. rewrite update_eq. unfold decision. rewrite Hquiet.
  unfold idle_event. cbn -[running].
  destruct (running (Some now)) as [t|] eqn:Et; [|done].
  apply running_Some in Et as [[= <-] _]. cbn.
  by rewrite (proj2 (Qle_bool_false _ _) Hlt).
Qed.

(** X23: A listener added with [add_listener] is called after every listener
    registered before it: forcing an event makes it current and, the
    earlier listeners failing with an [Exception] if at all, notifies them
    in order and then the new one, on what they left. *)
Theorem add_listener_notified_last
    (callback : EventCallback W) (e : PrinterEvent) now d w :
  ∃ d1 d',
    add_listener callback d = (Ok tt, d1)
    ∧ (force_event e now (d1, w)).2.1 = d'
    ∧ current_event d' = e
    ∧ (Forall raises_only_exceptions (_listeners d) →
       (force_event e now (d1, w)).2.2
       = (callback e (notified e (_listeners d) w)).2
       ∧ (raises_only_exceptions callback →
          force_event e now (d1, w)
          = (Ok tt, (d', (callback e (notified e (_listeners d) w)).2)))).
Proof.
  exists (set_listeners (_listeners d ++ [callback]) d).
  exists (moved e now (set_listeners (_listeners d ++ [callback]) d)).
  split; [reflexivity|].
  unfold force_event. rewrite _transition_moved.
  destruct d as [fl bt st cur prev ls idle bored]. cbn -[notify].
  split; [done|]. split; [done|]. intros Hall. unfold notified.
  rewrite (notify_after e ls callback w Hall). cbn [notify].
  destruct (callback e (foldl (λ w callback, (callback e w).2) w ls))
    as [[[]|b] w1] eqn:Hcb; cbn [fst snd]; [done|].
  destruct (is_exception b) eqn:Eb; cbn [fst snd]; [done|].
  split; [done|]. intros Hlast.
  specialize (Hlast e (foldl (λ w callback, (callback e w).2) w ls) b).
  rewrite Hcb in Hlast. specialize (Hlast eq_refl). congruence.
Qed.

End Detector.

Lemma update_keeps_timers_consistent_witness :
  timers_consistent
    (update PrinterState_default 1400
       (StateDetector_init 25 300 600 1000, [BORED])).2.1.
Proof.
  destruct (update_keeps_timers_consistent PrinterState_default 1400
              (StateDetector_init 25 300 600 1000) [BORED] 25 300 600 1000)
    as [Hinit Hkeep].
  apply Hkeep. exact Hinit.
Defined.

Lemma update_stable_at_fixed_instant_witness :
  let d := set_listeners [record_event] (StateDetector_init 25 300 600 1000) in
  update PrinterState_default 1400
    ((update PrinterState_default 1400 (d, [])).2.1, [BORED])
  = (Ok None, ((update PrinterState_default 1400 (d, [])).2.1, [BORED])).
Proof.
  cbv zeta.
  apply (update_stable_at_fixed_instant PrinterState_default 1400
           (set_listeners [record_event] (StateDetector_init 25 300 600 1000))
           [] [BORED]); by vm_compute.
Defined.

Lemma detect_event_printing_hysteresis_witness :
  let state : PrinterState :=
    Build_PrinterStateOf "ready" "printing" 0 "part.gcode" 60 60 204 210
      0 0 0 "Printing" in
  let d : StateDetector unit := StateDetector_init 25 300 600 1000 in
  _detect_event state 1001 d = (Ok HEATING, d)
  ∧ _detect_event state 1001 (set_current_event PRINTING d)
    = (Ok PRINTING, set_current_event PRINTING d).
Proof.
  cbv zeta. split.
  - apply (detect_event_printing_hysteresis
             (Build_PrinterStateOf "ready" "printing" 0 "part.gcode" 60 60
                204 210 0 0 0 "Printing") 1001
             (StateDetector_init 25 300 600 1000)); by vm_compute.
  - apply (detect_event_printing_hysteresis
             (Build_PrinterStateOf "ready" "printing" 0 "part.gcode" 60 60
                204 210 0 0 0 "Printing") 1001
             (set_current_event PRINTING (StateDetector_init 25 300 600 1000)));
      by vm_compute.
Defined.

Lemma idle_bored_sleep_lifecycle_witness :
  let d := set_listeners [record_event] (StateDetector_init 25 300 600 1000) in
  update PrinterState_default 1100 (d, []) = (Ok None, (d, []))
  ∧ ∃ d1,
      update PrinterState_default 1300 (d, [])
      = (Ok (Some BORED), (d1, [BORED]))
      ∧ ∃ d2, ∀ w1,
          update PrinterState_default 1900 (d1, w1)
          = (Ok (Some SLEEP), (d2, w1 ++ [SLEEP]))
          ∧ ∀ w2, update PrinterState_default 2000 (d2, w2)
                  = (Ok None, (d2, w2)).
Proof.
  cbv zeta.
  destruct (idle_bored_sleep_lifecycle PrinterState_default
              (set_listeners [record_event]
                 (StateDetector_init 25 300 600 1000))
              [] 1000 1100 1300 1900 2000)
    as (Hquiet & d1 & Hbored & _ & Hsleep).
  - by repeat split.
  - repeat constructor. apply record_event_raises_nothing.
  - reflexivity.
  - reflexivity.
  - reflexivity.
  - by vm_compute.
  - by vm_compute.
  - by vm_compute.
  - by vm_compute.
  - by vm_compute.
  - split; [apply Hquiet; by vm_compute|].
    exists d1. split; [exact Hbored|].
    apply Hsleep. by vm_compute.
Defined.

Lemma activity_restarts_idle_clock_witness :
  let d :=
    set_idle_start None
      (set_current_event PRINTING
         (set_listeners [record_event] (StateDetector_init 25 300 600 1000)))
  in
  ∃ d',
    update PrinterState_default 5000 (d, [])
    = (Ok (Some IDLE), (d', [IDLE]))
    ∧ _idle_start d' = Some 5000 ∧ _bored_start d' = None
    ∧ _previous_event d' = PRINTING
    ∧ ∀ w', update PrinterState_default 5100 (d', w') = (Ok None, (d', w')).
Proof.
  cbv zeta.
  destruct (activity_restarts_idle_clock PrinterState_default 5000 5100
              (set_idle_start None
                 (set_current_event PRINTING
                    (set_listeners [record_event]
                       (StateDetector_init 25 300 600 1000)))) [])
    as (d' & _ & _ & Hreport & Hidle & Hbored & Hprev & Hlater).
  - by repeat split.
  - by split.
  - cbn. set_solver.
  - by vm_compute.
  - exists d'. split; [|done]. apply Hreport.
    repeat constructor. apply record_event_raises_nothing.
Defined.

Lemma add_listener_notified_last_witness :
  let d := set_listeners [record_event] (StateDetector_init 25 300 600 1000) in
  ∃ d1 d',
    add_listener failing d = (Ok tt, d1)
    ∧ force_event SLEEP 1001 (d1, []) = (Ok tt, (d', [SLEEP]))
    ∧ current_event d' = SLEEP.
Proof.
  cbv zeta.
  destruct (add_listener_notified_last failing SLEEP 1001
              (set_listeners [record_event]
                 (StateDetector_init 25 300 600 1000)) [])
    as (d1 & d' & Hadd & _ & Hcur & Hlast).
  exists d1, d'. split; [exact Hadd|]. split; [|exact Hcur].
  apply Hlast.
  - repeat constructor. apply record_event_raises_nothing.
  - apply failing_raises_exception.
Defined.

End DetectorMore.

(** ** The pluggable detectors over time *)

Module PluggableMore.
Import States ContextSpec.
#[local] Open Scope Q_scope.

Lemma eq_str_true (v : pyval) (k : string) : eq_str v k = true → v = PStr k.
Proof.
  destruct v; try discriminate. simpl. by intros ->%String.eqb_eq.
Qed.

(** Strip the guard of a [detect] that returned, step by step. *)
Ltac through_guard H :=
  repeat match type of H with
  | (?m ≫= _) = _ =>
      let E := fresh "E" in
      destruct m eqn:E; cbn [mbind res_bind] in H |- *; [|discriminate]
  | (if ?b then _ else _) = Ok true =>
      let E := fresh "E" in
      destruct b eqn:E; [discriminate|]
  end.

(** X24: Neither unit fires out of the blue.  [BoredDetector.detect] answers
    [True] only with a context whose [last_state] is ['bored'] or ['idle'],
    [SleepDetector.detect] only with one whose [last_state] is ['sleep'] or
    ['bored']: sleep is reached through bored, never straight from idle.
    This holds for every status, typed or not. *)
Theorem detectors_fire_only_from_predecessor
    (status : gmap string pyval) (context : option (gmap string pyval)) :
  (BoredDetector.detect status context = Ok true →
   no_context context = false
   ∧ last_state context ∈ [PStr "bored"; PStr "idle"])
  ∧ (SleepDetector.detect status context = Ok true →
     no_context context = false
     ∧ last_state context ∈ [PStr "sleep"; PStr "bored"]).
Proof.
  split; intros H.
  - unfold BoredDetector.detect in H.
    destruct (no_context context) eqn:Ectx; [discriminate|].
    split; [done|]. cbv zeta in H. through_guard H.
    fold (last_state context) in H.
    destruct (eq_str (last_state context) "bored") eqn:Eb.
    { apply eq_str_true in Eb as ->. set_solver. }
    destruct (eq_str (last_state context) "idle") eqn:Ei; [|discriminate].
    apply eq_str_true in Ei as ->. set_solver.
  - unfold SleepDetector.detect in H.
    destruct (no_context context) eqn:Ectx; [discriminate|].
    split; [done|]. cbv zeta in H. through_guard H.
    fold (last_state context) in H.
    destruct (eq_str (last_state context) "sleep") eqn:Es.
    { apply eq_str_true in Es as ->. set_solver. }
    destruct (eq_str (last_state context) "bored") eqn:Eb; [|discriminate].
    apply eq_str_true in Eb as ->. set_solver.
Qed.

(** The timed comparison, once it has returned [True], stays [True] as the
    clock advances. *)
Lemma elapsed_monotone (t t' : Q) (enter timeout : pyval) :
  t <= t' →
  (d ← py_sub (PNum t) enter; py_ge d timeout) = Ok true →
  (d ← py_sub (PNum t') enter; py_ge d timeout) = Ok true.
Proof.
  intros Hle. unfold py_sub, py_ge. cbn [as_num mbind res_bind].
  destruct (as_num enter) as [y|]; [|discriminate]. cbn [mbind res_bind as_num].
  destruct (as_num timeout) as [z|]; [|discriminate]. cbn [mbind res_bind].
  intros [= H]. f_equal. apply Qle_bool_iff in H. apply Qle_bool_iff. lra.
Qed.

(** X25: Time only moves the units towards firing: a [detect] that answers
    [True] at one reading of [current_time] answers [True] at every later
    reading, the status and the rest of the context being the same. *)
Theorem detect_monotone_in_time
    (status context : gmap string pyval) (t t' : Q) :
  context !! "current_time" = Some (PNum t) →
  t <= t' →
  (BoredDetector.detect status (Some context) = Ok true →
   BoredDetector.detect status (at_time t' context) = Ok true)
  ∧ (SleepDetector.detect status (Some context) = Ok true →
     SleepDetector.detect status (at_time t' context) = Ok true).
Proof.
  intros Ht Hle.
  assert (no_context (at_time t' context) = false) as Hctx.
  { unfold at_time, no_context. apply bool_decide_eq_false.
    apply insert_non_empty. }
  split; intros H.
  - unfold BoredDetector.detect in *. rewrite Hctx.
    destruct (no_context (Some context)); [discriminate|].
    unfold at_time. cbv zeta in *.
    change (default ∅ (Some context)) with context in H.
    change (default ∅ (Some (<["current_time":=PNum t']> context)))
      with (<["current_time":=PNum t']> context).
    rewrite lookup_insert_eq, !lookup_insert_ne by done.
    rewrite Ht in H.
    change (default (PNum 0) (Some (PNum t))) with (PNum t) in H.
    change (default (PNum 0) (Some (PNum t'))) with (PNum t').
    through_guard H.
    destruct (eq_str _ "bored"); [done|].
    destruct (eq_str _ "idle"); [|done].
    by apply (elapsed_monotone t t').
  - unfold SleepDetector.detect in *. rewrite Hctx.
    destruct (no_context (Some context)); [discriminate|].
    unfold at_time. cbv zeta in *.
    change (default ∅ (Some context)) with context in H.
    change (default ∅ (Some (<["current_time":=PNum t']> context)))
      with (<["current_time":=PNum t']> context).
    rewrite lookup_insert_eq, !lookup_insert_ne by done.
    rewrite Ht in H.
    change (default (PNum 0) (Some (PNum t))) with (PNum t) in H.
    change (default (PNum 0) (Some (PNum t'))) with (PNum t').
    through_guard H.
    destruct (eq_str _ "sleep"); [done|].
    destruct (negb _); [done|].
    destruct (py_sub (PNum t) _) as [d|] eqn:Ed; [|discriminate].
    cbn [mbind res_bind] in H.
    destruct (py_ge d _) as [[]|] eqn:Ege; try discriminate.
    match goal with
    | |- context [py_sub (PNum t') ?enter] =>
        match type of Ege with py_ge _ ?timeout = _ =>
          pose proof (elapsed_monotone t t' enter timeout Hle) as Hm
        end
    end.
    rewrite Ed in Hm. cbn [mbind res_bind] in Hm. specialize (Hm Ege).
    destruct (py_sub (PNum t') _) as [d'|]; [|discriminate].
    cbn [mbind res_bind] in *. by rewrite Hm.
Qed.

Lemma detect_monotone_in_time_witness :
  let status : gmap string pyval :=
    {[ "extruder" := PDict {[ "target" := PNum 0 ]};
       "print_stats" := PDict {[ "state" := PStr "standby" ]} ]} in
  let context : gmap string pyval :=
    {[ "last_state" := PStr "idle"; "state_enter_time" := PNum 100;
       "current_time" := PNum 500; "bored_timeout" := PNum 300 ]} in
  BoredDetector.detect status (at_time 900 context) = Ok true.
Proof.
  cbv zeta.
  destruct (detect_monotone_in_time
              {[ "extruder" := PDict {[ "target" := PNum 0 ]};
                 "print_stats" := PDict {[ "state" := PStr "standby" ]} ]}
              {[ "last_state" := PStr "idle"; "state_enter_time" := PNum 100;
                 "current_time" := PNum 500; "bored_timeout" := PNum 300 ]}
              500 900) as [Hbored _].
  - vm_compute. reflexivity.
  - vm_compute. discriminate.
  - apply Hbored. vm_compute. reflexivity.
Defined.

(** X26: The two units overlap: whenever [SleepDetector.detect] fires from a
    context whose [last_state] is ['bored'], [BoredDetector.detect] fires
    on the same status and context too, and the two are told apart only by
    their priorities, which differ. *)
Theorem sleep_overlaps_bored
    (status : gmap string pyval) (context : option (gmap string pyval)) :
  last_state context = PStr "bored" →
  SleepDetector.detect status context = Ok true →
  BoredDetector.detect status context = Ok true
  ∧ BoredDetector.priority ≠ SleepDetector.priority.
Proof.
  intros Hlast H. split; [|done].
  unfold SleepDetector.detect in H. unfold BoredDetector.detect.
  destruct (no_context context); [discriminate|].
  cbv zeta in *. through_guard H.
  fold (last_state context). by rewrite Hlast.
Qed.

Lemma sleep_overlaps_bored_witness :
  let status : gmap string pyval :=
    {[ "extruder" := PDict {[ "target" := PNum 0 ]};
       "print_stats" := PDict {[ "state" := PStr "standby" ]} ]} in
  let context : option (gmap string pyval) :=
    Some {[ "last_state" := PStr "bored"; "state_enter_time" := PNum 100;
            "current_time" := PNum 900; "sleep_timeout" := PNum 600 ]} in
  BoredDetector.detect status context = Ok true
  ∧ BoredDetector.priority ≠ SleepDetector.priority.
Proof.
  cbv zeta. apply sleep_overlaps_bored; vm_compute; reflexivity.
Defined.

Lemma detectors_fire_only_from_predecessor_witness :
  let status : gmap string pyval :=
    {[ "extruder" := PDict {[ "target" := PNum 0 ]} ]} in
  let context : option (gmap string pyval) :=
    Some {[ "last_state" := PStr "bored"; "state_enter_time" := PNum 100;
            "current_time" := PNum 900; "sleep_timeout" := PNum 600 ]} in
  no_context context = false
  ∧ last_state context ∈ [PStr "sleep"; PStr "bored"].
Proof.
  cbv zeta.
  destruct (detectors_fire_only_from_predecessor
              {[ "extruder" := PDict {[ "target" := PNum 0 ]} ]}
              (Some {[ "last_state" := PStr "bored";
                       "state_enter_time" := PNum 100;
                       "current_time" := PNum 900;
                       "sleep_timeout" := PNum 600 ]})) as [_ Hsleep].
  apply Hsleep. vm_compute. reflexivity.
Defined.

End PluggableMore.

(** ** update_from_status as an operation on states *)

Module StatusMore.
Import State StatusSpec TelemetrySpec StatusMoreSpec StatusFacts.

(** A state is its twelve fields. *)
Lemma field_ext (a b : RawPrinterState) :
  (∀ f, field_value f a = field_value f b) → a = b.
Proof.
  intros H. destruct a, b.
  pose proof (H Klipper_state). pose proof (H Print_state).
  pose proof (H Filename). pose proof (H Progress).
  pose proof (H Bed_temp). pose proof (H Bed_target).
  pose proof (H Extruder_temp). pose proof (H Extruder_target).
  pose proof (H Position_x). pose proof (H Position_y).
  pose proof (H Position_z). pose proof (H Idle_state).
  simpl in *. by subst.
Qed.

(** X27: Applying the same well-formed status twice is applying it once. *)
Theorem update_from_status_idempotent
    (status : gmap string pyval) (st : RawPrinterState) :
  groups_well_formed status = true →
  (update_from_status status ≫= λ _, update_from_status status) st
  = update_from_status status st.
Proof.
  intros Hwf. rewrite St_bind_eq.
  rewrite !(update_from_status_merged status) by done.
  f_equal. apply field_ext. intros f. rewrite !field_value_merged.
  by destruct (sub_field status f).
Qed.

Lemma update_from_status_idempotent_witness :
  let status : gmap string pyval :=
    {[ "heater_bed" := PDict {[ "target" := PNone; "temperature" := PNum 60 ]};
       "toolhead" := PDict {[ "position" := PList [PNum 1; PNum 2; PNum 3] ]} ]}
  in
  (update_from_status status ≫= λ _, update_from_status status)
    (raw PrinterState_default)
  = update_from_status status (raw PrinterState_default).
Proof.
  cbv zeta. apply update_from_status_idempotent. vm_compute. reflexivity.
Defined.

(** X28: Two well-formed statuses applied in turn: each field ends with the
    value the later status carries for it, else the one the earlier status
    carries, else its old value.  When no field is carried by both, the
    order of the two updates does not matter. *)
Theorem update_from_status_in_turn
    (status1 status2 : gmap string pyval) (st : RawPrinterState) :
  groups_well_formed status1 = true →
  groups_well_formed status2 = true →
  ∃ st',
    (update_from_status status1 ≫= λ _, update_from_status status2) st
    = (Ok tt, st')
    ∧ (∀ f, field_value f st'
            = from_option (stored f)
                (from_option (stored f) (field_value f st)
                   (sub_field status1 f))
                (sub_field status2 f))
    ∧ ((∀ f, sub_field status1 f = None ∨ sub_field status2 f = None) →
       (update_from_status status2 ≫= λ _, update_from_status status1) st
       = (Ok tt, st')).
Proof.
  intros Hwf1 Hwf2. exists (merged status2 (merged status1 st)).
  split; [|split].
  - rewrite St_bind_eq.
    by rewrite (update_from_status_merged status1),
      (update_from_status_merged status2).
  - intros f. by rewrite !field_value_merged.
  - intros Hdisj. rewrite St_bind_eq.
    rewrite (update_from_status_merged status2),
      (update_from_status_merged status1) by done.
    f_equal. apply field_ext. intros f. rewrite !field_value_merged.
    by destruct (Hdisj f) as [-> | ->]; destruct (sub_field _ f).
Qed.

Lemma update_from_status_in_turn_witness :
  let status1 : gmap string pyval :=
    {[ "heater_bed" := PDict {[ "temperature" := PNum 60 ]} ]} in
  let status2 : gmap string pyval :=
    {[ "heater_bed" := PDict {[ "target" := PNum 65 ]};
       "webhooks" := PDict {[ "state" := PStr "ready" ]} ]} in
  (update_from_status status1 ≫= λ _, update_from_status status2)
    (raw PrinterState_default)
  = (update_from_status status2 ≫= λ _, update_from_status status1)
      (raw PrinterState_default).
Proof.
  cbv zeta.
  destruct (update_from_status_in_turn
              {[ "heater_bed" := PDict {[ "temperature" := PNum 60 ]} ]}
              {[ "heater_bed" := PDict {[ "target" := PNum 65 ]};
                 "webhooks" := PDict {[ "state" := PStr "ready" ]} ]}
              (raw PrinterState_default))
    as (st' & H12 & _ & H21);
    [vm_compute; reflexivity | vm_compute; reflexivity |].
  rewrite H12, H21; [reflexivity|].
  intros []; vm_compute; auto.
Defined.

(** X29: Typed telemetry keeps the state typed: from a state whose fields hold
    values of their annotated types, a well-formed status that carries
    values of those types (or falsy values for numeric fields) leaves
    every field with a value of its annotated type. *)
Theorem update_from_status_keeps_types
    (status : gmap string pyval) (st : RawPrinterState) :
  groups_well_formed status = true →
  well_typed status →
  (∀ f, annotated f (field_value f st) = true) →
  ∃ st',
    update_from_status status st = (Ok tt, st')
    ∧ ∀ f, annotated f (field_value f st') = true.
Proof.
  intros Hwf Htyped Hst. exists (merged status st).
  split; [by apply update_from_status_merged|].
  intros f. rewrite field_value_merged.
  destruct (sub_field status f) as [v|] eqn:Ev; [|apply Hst].
  specialize (Htyped f v Ev). cbn [from_option].
  unfold annotated, stored, py_or in *.
  destruct (numeric f); [|done].
  destruct Htyped as [Hnum | ->]; [|done]. by destruct (truthy v).
Qed.

Lemma update_from_status_keeps_types_witness :
  let status : gmap string pyval :=
    {[ "heater_bed" := PDict {[ "target" := PNone; "temperature" := PNum 60 ]};
       "webhooks" := PDict {[ "state" := PStr "ready" ]} ]} in
  ∃ st',
    update_from_status status (raw PrinterState_default) = (Ok tt, st')
    ∧ ∀ f, annotated f (field_value f st') = true.
Proof.
  cbv zeta. apply update_from_status_keeps_types.
  - vm_compute. reflexivity.
  - intros f v Hv.
    destruct f; vm_compute in Hv; try discriminate Hv;
      injection Hv as <-; cbn [numeric is_number is_string truthy]; auto.
  - intros []; vm_compute; reflexivity.
Defined.

Lemma when_group_delete_ne {S} (status : gmap string pyval) (k g : string)
    (body : pyval → St S unit) :
  k ≠ g → when_group (delete k status) g body = when_group status g body.
Proof. intros Hne. unfold when_group. by rewrite lookup_delete_ne. Qed.

Lemma when_group_delete {S} (status : gmap string pyval) (k : string)
    (body : pyval → St S unit) :
  when_group (delete k status) k body = mret tt.
Proof. unfold when_group. by rewrite lookup_delete_eq. Qed.

(** X30: An update is not atomic.  When the last group, [idle_timeout], is
    [null], a boolean or a number, [update_from_status] raises [TypeError],
    and by then every assignment of the other groups has been made: the
    state is the one the status without [idle_timeout] gives. *)
Theorem update_from_status_not_atomic
    (status : gmap string pyval) (st : RawPrinterState) (v : pyval) :
  status !! "idle_timeout" = Some v →
  scalar v = true →
  groups_well_formed (delete "idle_timeout" status) = true →
  update_from_status status st
  = (Raise TypeError, merged (delete "idle_timeout" status) st).
Proof.
  intros Hv Hs Hwf.
  pose proof (update_from_status_merged _ st Hwf) as H.
  unfold update_from_status in *.
  do 6 (rewrite St_bind_eq in H; rewrite St_bind_eq;
        rewrite when_group_delete_ne in H by done;
        match goal with
        | |- match ?m with _ => _ end = _ =>
            destruct m as [[[]|?] ?]; [|discriminate]
        end).
  rewrite when_group_delete in H. injection H as ->.
  unfold when_group. rewrite Hv. unfold when_in. rewrite St_bind_eq.
  by destruct v.
Qed.

Lemma update_from_status_not_atomic_witness :
  let status : gmap string pyval :=
    {[ "webhooks" := PDict {[ "state" := PStr "ready" ]};
       "idle_timeout" := PNone ]} in
  update_from_status status (raw PrinterState_default)
  = (Raise TypeError,
     merged (delete "idle_timeout" status) (raw PrinterState_default)).
Proof.
  cbv zeta.
  apply (update_from_status_not_atomic
           {[ "webhooks" := PDict {[ "state" := PStr "ready" ]};
              "idle_timeout" := PNone ]} (raw PrinterState_default) PNone);
    vm_compute; reflexivity.
Defined.

End StatusMore.
